(** * Fraud detection prototype: rules, synthetic data, scoring handler

    A shallow embedding of [rules.py], [model.py] and the order handler of
    [app.py], followed by the properties of the specification that were
    checked against it.

    Conventions of the embedding.
    - A Python [str] is a [string]: a sequence of characters whose code
      points lie below 256.
    - A Python [dict] with string keys is a [gmap string _]; a dict whose
      insertion order is observed (the flags, a data-frame row, a result
      entry) is an association list in insertion order.
    - A Python [set] is a [gset].
    - Code that reads or writes shared objects runs in the monad [Exec S],
      a state monad over the store [S] with Python exceptions; the store
      reached when an exception is raised is kept.
    - A float is represented by the rational number it denotes and the
      arithmetic of floats is an interface, as are the classifier and the
      random generator. *)

From Stdlib Require Import ZArith QArith Qround Lia Ascii String.
From stdpp Require Import base option list strings gmap sets pretty.

Local Open Scope Z_scope.

(** ** Python strings *)

Module PyStr.

(** [len(s)] *)
Definition len (s : string) : Z := Z.of_nat (String.length s).

(** One character of [str.lower()]: A..Z and the upper-case letters of
    the Latin-1 block (U+00C0..U+00DE without U+00D7) move up by 32. *)
Definition lower_char (c : ascii) : ascii :=
  let n := Ascii.N_of_ascii c in
  if ((65 <=? n) && (n <=? 90)
      || (192 <=? n) && (n <=? 222) && negb (n =? 215))%N
  then Ascii.ascii_of_N (n + 32) else c.

(** [s.lower()] *)
Fixpoint lower (s : string) : string :=
  match s with
  | EmptyString => EmptyString
  | String c s' => String (lower_char c) (lower s')
  end.

(** [s.split(sep)] for a one-character separator: never empty, one more
    piece than there are separators. *)
Fixpoint split (sep : ascii) (s : string) : list string :=
  match s with
  | EmptyString => [EmptyString]
  | String c s' =>
      if Ascii.eqb c sep then EmptyString :: split sep s'
      else match split sep s' with
           | [] => [String c EmptyString]
           | w :: ws => String c w :: ws
           end
  end.

(** [s.count(c)] for a one-character argument. *)
Fixpoint count (c : ascii) (s : string) : Z :=
  match s with
  | EmptyString => 0
  | String d s' => (if Ascii.eqb d c then 1 else 0) + count c s'
  end.

(** [s.startswith(p)] *)
Fixpoint startswith (s p : string) {struct p} : bool :=
  match p, s with
  | EmptyString, _ => true
  | String _ _, EmptyString => false
  | String a p', String b s' => Ascii.eqb a b && startswith s' p'
  end.

(** [s[n:]] for [0 <= n] *)
Fixpoint drop (n : nat) (s : string) : string :=
  match n, s with
  | O, _ => s
  | S _, EmptyString => EmptyString
  | S n', String _ s' => drop n' s'
  end.

(** [s.endswith(q)]: the last [len(q)] characters of [s] are [q]. *)
Definition endswith (s q : string) : bool :=
  (String.length q <=? String.length s)%nat
  && String.eqb (drop (String.length s - String.length q) s) q.

(** [sep.join(l)] *)
Fixpoint join (sep : string) (l : list string) : string :=
  match l with
  | [] => EmptyString
  | [x] => x
  | x :: l' => x +:+ sep +:+ join sep l'
  end.

(** [s.replace(a, b)] for one-character [a] and [b] *)
Fixpoint replace (a b : ascii) (s : string) : string :=
  match s with
  | EmptyString => EmptyString
  | String c s' => String (if Ascii.eqb c a then b else c) (replace a b s')
  end.

Definition is_ascii_letter (c : ascii) : bool :=
  let n := Ascii.N_of_ascii c in
  ((65 <=? n) && (n <=? 90) || (97 <=? n) && (n <=? 122))%N.

Definition upper_ascii (c : ascii) : ascii :=
  let n := Ascii.N_of_ascii c in
  if ((97 <=? n) && (n <=? 122))%N then Ascii.ascii_of_N (n - 32) else c.

Definition lower_ascii (c : ascii) : ascii :=
  let n := Ascii.N_of_ascii c in
  if ((65 <=? n) && (n <=? 90))%N then Ascii.ascii_of_N (n + 32) else c.

(** [s.title()] on ASCII text (the rule names it is applied to): a
    letter that follows a letter is lower-cased, any other letter is
    upper-cased. *)
Fixpoint title_from (after_letter : bool) (s : string) : string :=
  match s with
  | EmptyString => EmptyString
  | String c s' =>
      String (if after_letter then lower_ascii c else upper_ascii c)
             (title_from (is_ascii_letter c) s')
  end.
Definition title (s : string) : string := title_from false s.

End PyStr.

(** ** Python values and exceptions *)

(** The values an order or a data-frame cell holds. *)
Inductive value : Type :=
  | VStr (s : string)
  | VInt (z : Z).

Global Instance value_eq_dec : EqDecision value.
Proof. solve_decision. Defined.

Global Instance value_countable : Countable value :=
  inj_countable'
    (fun v => match v with VStr s => inl s | VInt z => inr z end)
    (fun x => match x with inl s => VStr s | inr z => VInt z end)
    (fun v => match v with VStr _ => eq_refl | VInt _ => eq_refl end).

Inductive exn : Type :=
  | KeyError (key : string)
  | IndexError
  | AttributeError
  | TypeError
  | ValueError.

Inductive result (A : Type) : Type :=
  | Ok (a : A)
  | Raise (e : exn).
Arguments Ok {A} a.
Arguments Raise {A} e.

(** A computation over a store [S]: it ends with a value or an exception,
    and in both cases with the store it has reached. *)
Definition Exec (S A : Type) : Type := S -> result A * S.

Definition ret {S A} (a : A) : Exec S A := fun s => (Ok a, s).

Definition bind {S A B} (m : Exec S A) (k : A -> Exec S B) : Exec S B :=
  fun s => match m s with
           | (Ok a, s') => k a s'
           | (Raise e, s') => (Raise e, s')
           end.

Definition raise {S A} (e : exn) : Exec S A := fun s => (Raise e, s).
Definition get {S} : Exec S S := fun s => (Ok s, s).
Definition put {S} (s : S) : Exec S unit := fun _ => (Ok tt, s).

(** Runs a computation on a part of the store (an object the store refers
    to), writing the part back. *)
Definition zoom {S T A} (proj : S -> T) (upd : T -> S -> S)
    (m : Exec T A) : Exec S A :=
  fun s => let '(r, t) := m (proj s) in (r, upd t s).

Declare Scope exec_scope.
Delimit Scope exec_scope with exec.
Notation "x <- m ;; k" := (bind m (fun x => k))
  (at level 100, m at next level, right associativity) : exec_scope.
Notation "m ;;; k" := (bind m (fun _ => k))
  (at level 100, right associativity) : exec_scope.

(** [d[key]] *)
Definition getitem {S V} (d : gmap string V) (key : string) : Exec S V :=
  match d !! key with
  | Some v => ret v
  | None => raise (KeyError key)
  end.

(** [d.get(key, dflt)] *)
Definition get_default {V} (d : gmap string V) (key : string) (dflt : V) : V :=
  default dflt (d !! key).

(** ** Dictionaries that remember their insertion order *)

(** A dict whose order of keys is observed, as a list of its items. *)
Definition odict (V : Type) : Type := list (string * V).

(** [d[key] = v]: replaces the value of a present key in place, appends a
    new key at the end. *)
Fixpoint odict_set {V} (d : odict V) (key : string) (v : V) : odict V :=
  match d with
  | [] => [(key, v)]
  | (k, w) :: d' =>
      if String.eqb k key then (k, v) :: d' else (k, w) :: odict_set d' key v
  end.

Fixpoint odict_lookup {V} (d : odict V) (key : string) : option V :=
  match d with
  | [] => None
  | (k, w) :: d' => if String.eqb k key then Some w else odict_lookup d' key
  end.

(** [d[key]] *)
Definition odict_getitem {S V} (d : odict V) (key : string) : Exec S V :=
  match odict_lookup d key with
  | Some v => ret v
  | None => raise (KeyError key)
  end.

(** [d.values()] *)
Definition odict_values {V} (d : odict V) : list V := map snd d.

(** [any(l)] *)
Definition any (l : list bool) : bool := existsb id l.

(** A method of [str] applied to a value: only a string has it. *)
Definition as_str {S} (e : exn) (v : value) : Exec S string :=
  match v with
  | VStr s => ret s
  | VInt _ => raise e
  end.

(** ** rules.py *)

Module rules.

Definition DISPOSABLE_DOMAINS : gset string :=
  {[ "tempmail.com"; "fakeemail.com"; "disposable.com" ]}.

(** [billing_address != shipping_address] *)
Definition is_address_mismatch (billing_address shipping_address : value) : bool :=
  negb (bool_decide (billing_address = shipping_address)).

Definition is_suspicious_email (email : string) : bool :=
  match PyStr.split "@" email !! 1%nat with
  | Some piece =>
      let domain := PyStr.lower piece in
      bool_decide (domain ∈ DISPOSABLE_DOMAINS)
  | None => false
  end.

Definition is_suspicious_phone (phone : string) : bool :=
  if PyStr.len phone <? 4 then true
  else
    match phone with
    | EmptyString => true (* not reached: [len(phone) >= 4] here *)
    | String c0 _ =>
        if PyStr.count c0 phone =? PyStr.len phone then true
        else if PyStr.startswith phone "000" || PyStr.startswith phone "999" then true
        else if PyStr.endswith phone "0000" || PyStr.endswith phone "1111" then true
        else false
    end.

Local Open Scope exec_scope.

(** [apply_rules(order, seen_ips)]. The store is the set object that
    [seen_ips] refers to. [str.split] on an [int] raises
    [AttributeError], [len] of an [int] raises [TypeError]. *)
Definition apply_rules (order : gmap string value)
    : Exec (gset value) (odict bool) :=
  let flags := [] in
  let flags := odict_set flags "mismatch"
    (is_address_mismatch (get_default order "billing_address" (VStr ""))
                         (get_default order "shipping_address" (VStr ""))) in
  email <- as_str AttributeError (get_default order "email" (VStr "")) ;;
  let flags := odict_set flags "suspicious_email" (is_suspicious_email email) in
  phone <- as_str TypeError (get_default order "phone" (VStr "")) ;;
  let flags := odict_set flags "suspicious_phone" (is_suspicious_phone phone) in
  seen_ips <- get ;;
  let flags := odict_set flags "repeated_ip"
    (bool_decide (get_default order "ip_address" (VStr "") ∈ seen_ips)) in
  ret flags.

End rules.

(** ** Interfaces of the libraries the program calls *)

(** Arithmetic of the float unit on the rationals that floats denote.
    Comparisons of floats are comparisons of these rationals; negation is
    exact. *)
Class FloatOps : Type := {
  fadd : Q -> Q -> Q;
  fmul : Q -> Q -> Q;
  fdiv : Q -> Q -> Q;
  fexp : Q -> Q;              (* [np.exp] *)
  fround : Q -> Z -> Q;       (* [round(x, ndigits)] *)
  fdec : Q -> Q               (* the float a decimal literal denotes *)
}.

Definition Qltb (a b : Q) : bool := negb (Qle_bool b a).

(** Python's [random] module: a generator state and what each call draws
    from it. [rng_choice n] is the position [random.choice] picks in a
    sequence of length [n]; [rng_sample n k] the positions [random.sample]
    picks, in order; [rng_choices n k] those of [random.choices]. *)
Class RandomGen : Type := {
  rng_state : Type;
  rng_seed : Z -> rng_state;
  rng_randint : Z -> Z -> rng_state -> Z * rng_state;
  rng_random : rng_state -> Q * rng_state;
  rng_choice : nat -> rng_state -> nat * rng_state;
  rng_sample : nat -> nat -> rng_state -> list nat * rng_state;
  rng_choices : nat -> nat -> rng_state -> list nat * rng_state
}.

(** scikit-learn's [LogisticRegression]: fitting a feature matrix against
    labels, and the probability of the positive class that a fitted model
    gives to one feature row, [model.predict_proba([x])[0][1]]. *)
Class Classifier : Type := {
  fitted : Type;
  fit : list (list Q) -> list Z -> result fitted;
  predict_proba1 : fitted -> list Q -> Q
}.

(** ** Loops and sequences *)

Fixpoint mapM {S A B} (f : A -> Exec S B) (l : list A) : Exec S (list B) :=
  match l with
  | [] => ret []
  | x :: l' => bind (f x) (fun y => bind (mapM f l') (fun ys => ret (y :: ys)))
  end.

Fixpoint foldM {S A B} (f : B -> A -> Exec S B) (l : list A) (b : B) : Exec S B :=
  match l with
  | [] => ret b
  | x :: l' => bind (f b x) (fun b' => foldM f l' b')
  end.

(** [range(n)] *)
Definition range (n : nat) : list nat := seq 0 n.

(** [l[i]] *)
Definition index {S A} (l : list A) (i : nat) : Exec S A :=
  match l !! i with
  | Some x => ret x
  | None => raise IndexError
  end.

(** [l[i] = x] *)
Definition list_setitem {S A} (l : list A) (i : nat) (x : A) : Exec S (list A) :=
  if decide (i < length l)%nat then ret (<[i := x]> l) else raise IndexError.

(** [str(z)], [f"{z}"] *)
Definition str_of_int (z : Z) : string := pretty z.

Definition as_int {S} (v : value) : Exec S Z :=
  match v with
  | VInt z => ret z
  | VStr _ => raise TypeError
  end.

(** ** The [random] module over the generator's state *)

Module random.
Section with_generator.
Context `{RandomGen}.

Definition draw {A} (f : rng_state -> A * rng_state) : Exec rng_state A :=
  fun g => let '(a, g') := f g in (Ok a, g').

Definition seed (a : Z) : Exec rng_state unit := put (rng_seed a).
Definition randint (a b : Z) : Exec rng_state Z := draw (rng_randint a b).
Definition random : Exec rng_state Q := draw rng_random.

Definition choice {A} (l : list A) : Exec rng_state A :=
  bind (draw (rng_choice (length l))) (index l).

Definition sample {A} (population : list A) (k : nat) : Exec rng_state (list A) :=
  bind (draw (rng_sample (length population) k)) (mapM (index population)).

Definition choices {A} (population : list A) (k : nat) : Exec rng_state (list A) :=
  bind (draw (rng_choices (length population) k)) (mapM (index population)).

End with_generator.
End random.

(** ** Data frames *)

(** A cell of a data frame or of a result entry: a value, or a float. *)
Inductive cell : Type :=
  | CValue (v : value)
  | CFloat (q : Q).

(** [x == y] on cells: numbers compare by value. *)
Definition cell_eqb (x y : cell) : bool :=
  match x, y with
  | CValue a, CValue b => bool_decide (a = b)
  | CFloat p, CFloat q => Qeq_bool p q
  | CValue (VInt z), CFloat q | CFloat q, CValue (VInt z) => Qeq_bool (inject_Z z) q
  | _, _ => false
  end.

(** A data frame, as the list of its rows; a row lists its cells under
    the column names, in column order. The empty list is a frame without
    rows: the columns of such a frame are not told (the frame that pandas
    builds from no record has none), and the statements about generated
    frames take at least one row. *)
Definition DataFrame : Type := list (odict cell).

Definition liftR {S A} (r : result A) : Exec S A := fun s => (r, s).

(** [df[c]], a series *)
Definition frame_col {S} (df : DataFrame) (c : string) : Exec S (list cell) :=
  mapM (fun r => odict_getitem r c) df.

(** [df[c] = series] *)
Definition frame_set_col (df : DataFrame) (c : string) (series : list cell) : DataFrame :=
  zip_with (fun r x => odict_set r c x) df series.

(** [df[cols]] *)
Definition frame_select {S} (df : DataFrame) (cols : list string) : Exec S DataFrame :=
  mapM (fun r => mapM (fun c => bind (odict_getitem r c) (fun x => ret (c, x))) cols) df.

(** An integer column read as integers. *)
Definition cell_int {S} (x : cell) : Exec S Z :=
  match x with
  | CValue (VInt z) => ret z
  | _ => raise TypeError
  end.

(** Conversion of a cell to a float, as done when a frame becomes a
    numeric array. *)
Definition cell_float {S} (x : cell) : Exec S Q :=
  match x with
  | CValue (VInt z) => ret (inject_Z z)
  | CFloat q => ret q
  | CValue (VStr _) => raise ValueError
  end.

(** ** model.py *)

Module model.
Section with_libraries.
Context `{RandomGen} `{FloatOps} `{Classifier}.
Local Open Scope exec_scope.

(** The seeding at import: [random.seed(42)]. ([np.random.seed(42)]
    seeds a generator that nothing below draws from.) *)
Definition module_init : Exec rng_state unit := random.seed 42.

Definition random_ip : Exec rng_state string :=
  a <- random.randint 1 255 ;;
  b <- random.randint 0 255 ;;
  c <- random.randint 0 255 ;;
  d <- random.randint 1 255 ;;
  ret (str_of_int a +:+ "." +:+ str_of_int b +:+ "." +:+ str_of_int c
       +:+ "." +:+ str_of_int d).

Definition disposable_domains : list string :=
  ["tempmail.com"; "fakeemail.com"; "disposable.com"].
Definition normal_domains : list string :=
  ["gmail.com"; "yahoo.com"; "outlook.com"; "hotmail.com"; "example.com"].
Definition letters : list string :=
  map (fun c => String c EmptyString)
      (list_ascii_of_string "abcdefghijklmnopqrstuvwxyz").

(** The body of [for ip in repeat_ips]. *)
Definition repeat_ip (n : nat) (ip_list : list string) (ip : string)
    : Exec rng_state (list string) :=
  idxs <- random.sample (range n) (Nat.min 3 n) ;;
  foldM (fun l idx => list_setitem l idx ip) idxs ip_list.

(** The body of [for i in range(n)]: the dict appended to [data]. *)
Definition mock_order (ip_list : list string) (i : nat)
    : Exec rng_state (odict cell) :=
  pin_code <- random.randint 100000 999999 ;;
  r <- random.random ;;
  ship_pin <- (if Qltb r (fdec 0.8) then ret pin_code
               else random.randint 100000 999999) ;;
  let mismatch := Z.b2z (negb (ship_pin =? pin_code)) in
  let billing_address :=
    str_of_int (Z.of_nat i) +:+ " Green Street, CityX, " +:+ str_of_int pin_code in
  let shipping_address :=
    if mismatch =? 0 then billing_address
    else str_of_int (Z.of_nat i) +:+ " High Street, CityY, " +:+ str_of_int ship_pin in
  r <- random.random ;;
  domain <- (if Qltb r (fdec 0.1) then random.choice disposable_domains
             else random.choice normal_domains) ;;
  cs <- random.choices letters 5 ;;
  let email_user := PyStr.join "" cs in
  let email := email_user +:+ "@" +:+ domain in
  let suspicious_email := Z.b2z (bool_decide (domain ∈ disposable_domains)) in
  ds <- mapM (fun _ => d <- random.randint 0 9 ;; ret (str_of_int d)) (range 10) ;;
  let phone := PyStr.join "" ds in
  r <- random.random ;;
  let suspicious_phone :=
    if Qltb r (fdec 0.1)
       || PyStr.startswith phone "000" || PyStr.startswith phone "999"
       || PyStr.endswith phone "0000" || PyStr.endswith phone "1111"
    then 1 else 0 in
  amount <- random.randint 100 5000 ;;
  ip <- index ip_list i ;;
  ret [ ("order_id", CValue (VInt (Z.of_nat i + 1)));
        ("billing_address", CValue (VStr billing_address));
        ("shipping_address", CValue (VStr shipping_address));
        ("billing_pin", CValue (VInt pin_code));
        ("shipping_pin", CValue (VInt ship_pin));
        ("email", CValue (VStr email));
        ("phone", CValue (VStr phone));
        ("ip_address", CValue (VStr ip));
        ("mismatch", CValue (VInt mismatch));
        ("suspicious_email", CValue (VInt suspicious_email));
        ("suspicious_phone", CValue (VInt suspicious_phone));
        ("amount", CValue (VInt amount)) ].

(** [df['ip_address'].value_counts()[ip]] *)
Definition ip_count (ips : list cell) (ip : cell) : Z :=
  Z.of_nat (length (List.filter (cell_eqb ip) ips)).

Definition coeffs_mismatch : Q := fdec 1.0.
Definition coeffs_suspicious_email : Q := fdec 1.2.
Definition coeffs_suspicious_phone : Q := fdec 0.8.
Definition coeffs_repeated_ip : Q := fdec 1.0.
Definition coeffs_amount : Q := fdec 0.0005.
Definition intercept : Q := - fdec 2.4.

(** Arithmetic of series, element by element. *)
Definition series_mul (s : list Z) (c : Q) : list Q :=
  map (fun x => fmul (inject_Z x) c) s.
Definition series_add (s t : list Q) : list Q := zip_with fadd s t.
Definition series_add_scalar (s : list Q) (c : Q) : list Q :=
  map (fun x => fadd x c) s.

Definition int_col (df : DataFrame) (c : string) : Exec rng_state (list Z) :=
  col <- frame_col df c ;; mapM cell_int col.

Definition generate_mock_data (n : nat) : Exec rng_state DataFrame :=
  ip_list <- mapM (fun _ => random_ip) (range n) ;;
  repeat_ips <- random.sample ip_list (Nat.min 3 n) ;;
  ip_list <- foldM (repeat_ip n) repeat_ips ip_list ;;
  data <- mapM (mock_order ip_list) (range n) ;;
  let df : DataFrame := data in
  ips <- frame_col df "ip_address" ;;
  let df := frame_set_col df "repeated_ip"
    (map (fun ip => CValue (VInt (if 1 <? ip_count ips ip then 1 else 0))) ips) in
  mismatch <- int_col df "mismatch" ;;
  suspicious_email <- int_col df "suspicious_email" ;;
  suspicious_phone <- int_col df "suspicious_phone" ;;
  repeated_ip <- int_col df "repeated_ip" ;;
  amount <- int_col df "amount" ;;
  let linear_score :=
    series_add_scalar
      (series_add
        (series_add
          (series_add
            (series_add (series_mul mismatch coeffs_mismatch)
                        (series_mul suspicious_email coeffs_suspicious_email))
            (series_mul suspicious_phone coeffs_suspicious_phone))
          (series_mul repeated_ip coeffs_repeated_ip))
        (series_mul amount coeffs_amount))
      intercept in
  let fraud_prob := map (fun s => fdiv 1 (fadd 1 (fexp (- s)))) linear_score in
  let df := frame_set_col df "fraud_label"
    (map (fun p => CValue (VInt (Z.b2z (Qltb 0.5 p)))) fraud_prob) in
  ret df.

Definition features : list string :=
  ["mismatch"; "suspicious_email"; "suspicious_phone"; "repeated_ip"; "amount"].

(** [X['amount'] / 1000.0], one element. The amounts of a generated
    frame are drawn by [random.randint(100, 5000)] and convert to
    floats. *)
Definition scale_amount {S} (x : cell) : Exec S cell :=
  match x with
  | CValue (VInt z) => ret (CFloat (fdiv (inject_Z z) 1000.0))
  | CFloat q => ret (CFloat (fdiv q 1000.0))
  | CValue (VStr _) => raise TypeError
  end.

(** The feature matrix that [train_model] hands to [fit]. *)
Definition training_matrix {S} (training_data : DataFrame)
    : Exec S (list (list Q)) :=
  X <- frame_select training_data features ;;
  amount <- frame_col X "amount" ;;
  scaled <- mapM scale_amount amount ;;
  let X := frame_set_col X "amount" scaled in
  mapM (fun r => mapM cell_float (odict_values r)) X.

Definition train_model {S} (training_data : DataFrame) : Exec S fitted :=
  X <- training_matrix training_data ;;
  y <- (col <- frame_col training_data "fraud_label" ;; mapM cell_int col) ;;
  liftR (fit X y).

End with_libraries.
End model.

(** ** app.py: the handler of the button "Ingest Next Order" *)

Module app.
Section with_libraries.
Context `{FloatOps} `{Classifier}.
Local Open Scope exec_scope.

(** [st.session_state] *)
Record session_state : Type := {
  new_orders : list (gmap string value);
  processed_orders : list (odict cell);
  seen_ips : gset value
}.

Definition set_new_orders (l : list (gmap string value)) (st : session_state) :=
  {| new_orders := l; processed_orders := processed_orders st; seen_ips := seen_ips st |}.
Definition set_processed_orders (l : list (odict cell)) (st : session_state) :=
  {| new_orders := new_orders st; processed_orders := l; seen_ips := seen_ips st |}.
Definition set_seen_ips (s : gset value) (st : session_state) :=
  {| new_orders := new_orders st; processed_orders := processed_orders st; seen_ips := s |}.

(** The local variables of one run of the handler. *)
Record locals : Type := {
  flags : odict bool;
  features : list (list Q);
  risk_prob : Q;
  risk_percent : Q;
  flagged : bool;
  result_entry : odict cell
}.

(** [next_order['amount'] / 1000.0], for an integer that converts to a
    float. Python raises [OverflowError] for an integer too large to
    convert, as every integer from [2 ** 1024] on is; the statements
    about orders that do not come from the generator bound the amount,
    see [amount_in_range]. *)
Definition scale_amount {S} (amount : value) : Exec S Q :=
  match amount with
  | VInt z => ret (fdiv (inject_Z z) 1000.0)
  | VStr _ => raise TypeError
  end.

(** [int(b)] as an entry of the feature list *)
Definition int_of_bool (b : bool) : Q := inject_Z (Z.b2z b).

Definition threshold : Q := 50.0.

(** The body of [if st.session_state.new_orders:], after the pop. *)
Definition score (model : fitted) (next_order : gmap string value)
    : Exec session_state locals :=
  flags <- zoom seen_ips set_seen_ips (rules.apply_rules next_order) ;;
  f_mismatch <- odict_getitem flags "mismatch" ;;
  f_email <- odict_getitem flags "suspicious_email" ;;
  f_phone <- odict_getitem flags "suspicious_phone" ;;
  f_ip <- odict_getitem flags "repeated_ip" ;;
  amount <- getitem next_order "amount" ;;
  scaled <- scale_amount amount ;;
  let x := [ int_of_bool f_mismatch; int_of_bool f_email;
             int_of_bool f_phone; int_of_bool f_ip; scaled ] in
  let features := [x] in
  let risk_prob := predict_proba1 model x in
  let risk_percent := fround (fmul risk_prob 100) 2 in
  let flagged := Qle_bool threshold risk_percent || any (odict_values flags) in
  order_id <- getitem next_order "order_id" ;;
  email <- getitem next_order "email" ;;
  phone <- getitem next_order "phone" ;;
  billing_address <- getitem next_order "billing_address" ;;
  shipping_address <- getitem next_order "shipping_address" ;;
  amount <- getitem next_order "amount" ;;
  let result_entry :=
    [ ("Order ID", CValue order_id);
      ("Email", CValue email);
      ("Phone", CValue phone);
      ("Billing Address", CValue billing_address);
      ("Shipping Address", CValue shipping_address);
      ("Amount", CValue amount);
      ("Risk Score (%)", CFloat risk_percent);
      ("Flagged", CValue (VStr (if flagged then "Yes" else "No")));
      ("Alerts", CValue (VStr "")) ] in
  let triggered_rules :=
    map (fun item => PyStr.title (PyStr.replace "_" " " (fst item)))
        (List.filter snd flags) in
  let result_entry :=
    match triggered_rules with
    | [] => result_entry
    | _ :: _ => odict_set result_entry "Alerts"
                  (CValue (VStr (PyStr.join ", " triggered_rules)))
    end in
  st <- get ;;
  put (set_processed_orders (processed_orders st ++ [result_entry]) st) ;;;
  ip <- getitem next_order "ip_address" ;;
  st <- get ;;
  put (set_seen_ips ({[ ip ]} ∪ seen_ips st) st) ;;;
  ret {| flags := flags; features := features; risk_prob := risk_prob;
         risk_percent := risk_percent; flagged := flagged;
         result_entry := result_entry |}.

(** [if st.button("Ingest Next Order"):] with the button pressed. An
    empty queue only shows a warning. *)
Definition ingest_next_order (model : fitted)
    : Exec session_state (option locals) :=
  st <- get ;;
  match new_orders st with
  | next_order :: rest =>
      put (set_new_orders rest st) ;;;
      l <- score model next_order ;;
      ret (Some l)
  | [] => ret None
  end.

End with_libraries.
End app.

(** ** app.py: from the imports to the button *)

(** [df.drop(columns=cols)], row by row: dropping a column that is not
    there raises [KeyError]. *)
Definition row_drop {S} (row : odict cell) (cols : list string) : Exec S (odict cell) :=
  bind (mapM (odict_getitem row) cols) (fun _ =>
  ret (List.filter (fun item => negb (existsb (String.eqb (fst item)) cols)) row)).
Definition frame_drop {S} (df : DataFrame) (cols : list string) : Exec S DataFrame :=
  mapM (fun row => row_drop row cols) df.

(** One record of [df.to_dict(orient='records')], built column by column.
    A float cell has no counterpart among the values of an order; the
    frames that the program converts hold none. *)
Fixpoint record_from {S} (record : gmap string value) (row : odict cell)
    : Exec S (gmap string value) :=
  match row with
  | [] => ret record
  | (c, CValue v) :: row' => record_from (<[c := v]> record) row'
  | (c, CFloat _) :: _ => raise TypeError
  end.

(** [df.to_dict(orient='records')] *)
Definition to_dict_records {S} (df : DataFrame) : Exec S (list (gmap string value)) :=
  mapM (record_from ∅) df.

Module startup.

Definition dropped_columns : list string :=
  ["fraud_label"; "mismatch"; "suspicious_email"; "suspicious_phone"; "repeated_ip"].

Section with_libraries.
Context `{RandomGen} `{FloatOps} `{Classifier}.
Local Open Scope exec_scope.

(** The body of [if 'new_orders' not in st.session_state:]. *)
Definition initial_session : Exec rng_state app.session_state :=
  new_orders_df <- model.generate_mock_data 20 ;;
  new_orders_df <- frame_drop new_orders_df dropped_columns ;;
  new_orders <- to_dict_records new_orders_df ;;
  ret {| app.new_orders := new_orders;
         app.processed_orders := [];
         app.seen_ips := ∅ |}.





End with_libraries.
End startup.

(** ** Vocabulary of the statements *)

(** The characters of a string, and the ways one string lies in another. *)
Definition chars (s : string) : list ascii := list_ascii_of_string s.
Definition has_prefix (p s : string) : Prop := exists r, s = p +:+ r.
Definition has_suffix (q s : string) : Prop := exists r, s = r +:+ q.
Definition all_equal_first (s : string) : Prop :=
  forall c, In c (chars s) -> head (chars s) = Some c.

(** The IP address that [apply_rules] looks up in the seen-IP set. *)
Definition order_ip (order : gmap string value) : value :=
  get_default order "ip_address" (VStr "").

Definition is_str (v : value) : Prop := exists s, v = VStr s.

(** The fields that [apply_rules] calls string methods on are strings
    when present. *)
Definition rule_inputs_ok (order : gmap string value) : Prop :=
  is_str (get_default order "email" (VStr ""))
  /\ is_str (get_default order "phone" (VStr "")).

(** The amount is an integer when present. *)
Definition amount_ok (order : gmap string value) : Prop :=
  forall v, order !! "amount" = Some v -> exists a, v = VInt a.

(** The largest float, an integer: every integer up to it in absolute
    value converts to a float, so that dividing it by [1000.0] raises no
    [OverflowError]. An order whose amount, when an integer, is within
    this bound. *)
Definition max_float : Z := 2 ^ 1024 - 2 ^ 971.
Definition amount_in_range (order : gmap string value) : Prop :=
  forall a, order !! "amount" = Some (VInt a) -> Z.abs a <= max_float.

(** An order with the empty string stored under each absent key that
    [apply_rules] reads. *)
Definition fill_default (key : string) (order : gmap string value)
    : gmap string value :=
  match order !! key with
  | Some _ => order
  | None => <[key := VStr ""]> order
  end.
Definition with_defaults (order : gmap string value) : gmap string value :=
  foldr fill_default order
    ["billing_address"; "shipping_address"; "email"; "phone"; "ip_address"].

(** The keys that the handler subscripts before it records a verdict, in
    the order in which it reads them, and the first of them that an order
    lacks. *)
Definition scoring_keys : list string :=
  ["amount"; "order_id"; "email"; "phone"; "billing_address"; "shipping_address"].
Definition absent (order : gmap string value) (key : string) : bool :=
  match order !! key with None => true | Some _ => false end.
Definition first_missing (order : gmap string value) : option string :=
  List.find (absent order) scoring_keys.

Definition rule_names : list string :=
  ["mismatch"; "suspicious_email"; "suspicious_phone"; "repeated_ip"].

(** The flags that [apply_rules] returns for an order whose email and
    phone (after defaults) are the given strings. *)
Definition rule_flags (order : gmap string value) (seen : gset value)
    (email phone : string) : odict bool :=
  [ ("mismatch",
      rules.is_address_mismatch
        (get_default order "billing_address" (VStr ""))
        (get_default order "shipping_address" (VStr "")));
    ("suspicious_email", rules.is_suspicious_email email);
    ("suspicious_phone", rules.is_suspicious_phone phone);
    ("repeated_ip", bool_decide (order_ip order ∈ seen)) ].

(** Running a computation two times in a row. *)
Definition twice {S A} (m : Exec S A) : Exec S (A * A) :=
  bind m (fun a => bind m (fun b => ret (a, b))).

(** What a run of [app.score] that returns has computed and left in the
    session. *)
Definition scored `{FloatOps} `{Classifier} (model : fitted)
    (order : gmap string value) (st : app.session_state) (l : app.locals)
    (st' : app.session_state) : Prop :=
  exists email phone a ip x,
    get_default order "email" (VStr "") = VStr email
    /\ get_default order "phone" (VStr "") = VStr phone
    /\ order !! "amount" = Some (VInt a)
    /\ order !! "ip_address" = Some ip
    /\ first_missing order = None
    /\ app.flags l = rule_flags order (app.seen_ips st) email phone
    /\ x = map (fun name =>
                 app.int_of_bool (default false (odict_lookup (app.flags l) name)))
               rule_names
            ++ [fdiv (inject_Z a) 1000.0]
    /\ app.features l = [x]
    /\ app.risk_prob l = predict_proba1 model x
    /\ app.risk_percent l = fround (fmul (app.risk_prob l) 100) 2
    /\ app.flagged l =
         Qle_bool app.threshold (app.risk_percent l)
         || any (odict_values (app.flags l))
    /\ odict_lookup (app.result_entry l) "Flagged"
         = Some (CValue (VStr (if app.flagged l then "Yes" else "No")))
    /\ odict_lookup (app.result_entry l) "Risk Score (%)"
         = Some (CFloat (app.risk_percent l))
    /\ st' = {| app.new_orders := app.new_orders st;
                app.processed_orders :=
                  app.processed_orders st ++ [app.result_entry l];
                app.seen_ips := {[ ip ]} ∪ app.seen_ips st |}.

(** One press of the button takes the session from [st] to [st']. *)
Definition handler_step `{FloatOps} `{Classifier} (model : fitted)
    (st st' : app.session_state) : Prop :=
  exists r, app.ingest_next_order model st = (r, st').

(** A computation that returns [y] from every store and leaves the store
    as it is; a computation whose success does not depend on the store. *)
Definition returns {S A} (m : Exec S A) (y : A) : Prop :=
  forall s, m s = (Ok y, s).



(** ** Vocabulary of the handler's record and of a session *)

(** The name under which a triggered rule appears among the alerts:
    [rule.replace('_', ' ').title()]. *)
Definition display_name (name : string) : string :=
  PyStr.title (PyStr.replace "_" " " name).

(** The rules whose flag is true, in the order of the flags. *)
Definition triggered (fl : odict bool) : list string :=
  map fst (List.filter snd fl).

(** The keys of an entry of the processed orders. *)
Definition entry_keys : list string :=
  ["Order ID"; "Email"; "Phone"; "Billing Address"; "Shipping Address";
   "Amount"; "Risk Score (%)"; "Flagged"; "Alerts"].

(** An order on which the handler reads every key it subscripts, with an
    email and a phone that are strings and an integer amount. *)
Definition order_complete (order : gmap string value) : Prop :=
  rule_inputs_ok order /\ amount_ok order /\ first_missing order = None
  /\ is_Some (order !! "ip_address").

(** The button pressed once for each model of a list, the run of the
    script that a press starts having fitted that model: the result of
    every press, whatever each of them does, and the session after the
    last. *)
Fixpoint press_each `{FloatOps} `{Classifier} (models : list fitted)
    (st : app.session_state)
    : list (result (option app.locals)) * app.session_state :=
  match models with
  | [] => ([], st)
  | model :: models' =>
      let '(r, st1) := app.ingest_next_order model st in
      let '(rs, st2) := press_each models' st1 in
      (r :: rs, st2)
  end.

(** [k] presses of the button, one after the other, whatever each of them
    does: the result of every press and the session after the last. *)
Fixpoint press_all `{FloatOps} `{Classifier} (model : fitted) (k : nat)
    (st : app.session_state)
    : list (result (option app.locals)) * app.session_state :=
  match k with
  | O => ([], st)
  | S k' =>
      let '(r, st1) := app.ingest_next_order model st in
      let '(rs, st2) := press_all model k' st1 in
      (r :: rs, st2)
  end.

(** ** Vocabulary of the generated data *)

(** The linear score and the label that the generator computes from the
    five feature columns of a row. *)
Definition linear_score_of `{FloatOps} (mismatch suspicious_email suspicious_phone
    repeated_ip amount : Z) : Q :=
  fadd
    (fadd
      (fadd
        (fadd
          (fadd (fmul (inject_Z mismatch) model.coeffs_mismatch)
                (fmul (inject_Z suspicious_email) model.coeffs_suspicious_email))
          (fmul (inject_Z suspicious_phone) model.coeffs_suspicious_phone))
        (fmul (inject_Z repeated_ip) model.coeffs_repeated_ip))
      (fmul (inject_Z amount) model.coeffs_amount))
    model.intercept.
Definition label_of_score `{FloatOps} (score : Q) : Z :=
  Z.b2z (Qltb 0.5 (fdiv 1 (fadd 1 (fexp (- score))))).

(** The score and the probability of the claim about labels, in the
    float arithmetic of the code and in the order in which the code adds:
    every coefficient is the float its literal denotes. And the score in
    exact arithmetic. *)
Definition float_score `{FloatOps} (mismatch suspicious_email suspicious_phone
    repeated_ip amount : Z) : Q :=
  fadd
    (fadd
      (fadd
        (fadd
          (fadd (fmul (inject_Z mismatch) (fdec 1.0))
                (fmul (inject_Z suspicious_email) (fdec 1.2)))
          (fmul (inject_Z suspicious_phone) (fdec 0.8)))
        (fmul (inject_Z repeated_ip) (fdec 1.0)))
      (fmul (inject_Z amount) (fdec 0.0005)))
    (- fdec 2.4).
Definition float_logistic `{FloatOps} (score : Q) : Q :=
  fdiv 1 (fadd 1 (fexp (- score))).
Definition exact_score (mismatch suspicious_email suspicious_phone
    repeated_ip amount : Z) : Q :=
  1.0 * inject_Z mismatch + 1.2 * inject_Z suspicious_email
  + 0.8 * inject_Z suspicious_phone + 1.0 * inject_Z repeated_ip
  + 0.0005 * inject_Z amount - 2.4.

(** The addresses of the order at position [i] with the given pin codes. *)
Definition billing_of (i : nat) (pin : Z) : string :=
  str_of_int (Z.of_nat i) +:+ " Green Street, CityX, " +:+ str_of_int pin.
Definition shipping_of (i : nat) (pin ship : Z) : string :=
  if ship =? pin then billing_of i pin
  else str_of_int (Z.of_nat i) +:+ " High Street, CityY, " +:+ str_of_int ship.

(** The row that the loop of the generator appends at position [i], in
    terms of what it drew; and the row of the returned frame, with the
    two columns that are computed on the whole frame. *)
Definition mock_row (i : nat) (pin ship : Z) (email_user domain phone ip : string)
    (suspicious_phone amount : Z) : odict cell :=
  [ ("order_id", CValue (VInt (Z.of_nat i + 1)));
    ("billing_address", CValue (VStr (billing_of i pin)));
    ("shipping_address", CValue (VStr (shipping_of i pin ship)));
    ("billing_pin", CValue (VInt pin));
    ("shipping_pin", CValue (VInt ship));
    ("email", CValue (VStr (email_user +:+ "@" +:+ domain)));
    ("phone", CValue (VStr phone));
    ("ip_address", CValue (VStr ip));
    ("mismatch", CValue (VInt (Z.b2z (negb (ship =? pin)))));
    ("suspicious_email",
     CValue (VInt (Z.b2z (bool_decide (domain ∈ model.disposable_domains)))));
    ("suspicious_phone", CValue (VInt suspicious_phone));
    ("amount", CValue (VInt amount)) ].
Definition generated_row `{FloatOps} (i : nat) (pin ship : Z)
    (email_user domain phone ip : string) (suspicious_phone amount repeated_ip : Z)
    : odict cell :=
  mock_row i pin ship email_user domain phone ip suspicious_phone amount
  ++ [ ("repeated_ip", CValue (VInt repeated_ip));
       ("fraud_label",
        CValue (VInt (label_of_score
          (linear_score_of
             (Z.b2z (negb (ship =? pin)))
             (Z.b2z (bool_decide (domain ∈ model.disposable_domains)))
             suspicious_phone repeated_ip amount)))) ].
Definition is_generated_row `{FloatOps} (row : odict cell) : Prop :=
  exists i pin ship user domain phone ip sp amount rep,
    row = generated_row i pin ship user domain phone ip sp amount rep.

(** [(ip_counts > 1).astype(int)] for one IP address of the column. *)
Definition repeated_of (ips : list cell) (ip : string) : Z :=
  if 1 <? model.ip_count ips (CValue (VStr ip)) then 1 else 0.

(** The columns of the generated frame, in order. *)
Definition generated_columns : list string :=
  ["order_id"; "billing_address"; "shipping_address"; "billing_pin"; "shipping_pin";
   "email"; "phone"; "ip_address"; "mismatch"; "suspicious_email";
   "suspicious_phone"; "amount"; "repeated_ip"; "fraud_label"].

(** What the program relies on from Python's [random]: [choice] on a
    non-empty sequence, [sample] of at most as many items as there are
    and [choices] on a non-empty sequence pick positions of the
    sequence. *)
Definition random_in_range (R : RandomGen) : Prop :=
  (forall n g, (0 < n)%nat -> (fst (rng_choice n g) < n)%nat)
  /\ (forall n k g, (k <= n)%nat -> Forall (fun j => (j < n)%nat) (fst (rng_sample n k g)))
  /\ (forall n k g, (0 < n)%nat -> Forall (fun j => (j < n)%nat) (fst (rng_choices n k g))).

(** The integer in a column of a row; the feature row and the label that
    training reads from a row of the frame. *)
Definition int_at (row : odict cell) (c : string) : Z :=
  match odict_lookup row c with
  | Some (CValue (VInt z)) => z
  | _ => 0
  end.
Definition has_int (row : odict cell) (c : string) : Prop :=
  exists z, odict_lookup row c = Some (CValue (VInt z)).
Definition training_row `{FloatOps} (row : odict cell) : list Q :=
  [ inject_Z (int_at row "mismatch"); inject_Z (int_at row "suspicious_email");
    inject_Z (int_at row "suspicious_phone"); inject_Z (int_at row "repeated_ip");
    fdiv (inject_Z (int_at row "amount")) 1000.0 ].

(** ** Vocabulary of the runs of the script *)



(** The keys of a queued order, and the order queued from a row of the
    frame: the cells of the row, the five dropped columns apart. *)
Definition queue_keys : gset string :=
  {[ "order_id"; "billing_address"; "shipping_address"; "billing_pin";
     "shipping_pin"; "email"; "phone"; "ip_address"; "amount" ]}.
Definition queued_from (row : odict cell) (order : gmap string value) : Prop :=
  forall c,
    order !! c
    = if bool_decide (c ∈ startup.dropped_columns) then None
      else match odict_lookup row c with
           | Some (CValue v) => Some v
           | _ => None
           end.

(** ** Instances of the interfaces, for concrete runs *)

(** [round(x, ndigits)] on exact rationals: to the nearest multiple of
    [10^-ndigits], a tie going to the even one. *)
Definition Qround_half_even (x : Q) (ndigits : Z) : Q :=
  let scale := inject_Z (10 ^ ndigits) in
  let y := (x * scale)%Q in
  let f := Qfloor y in
  let d := (y - inject_Z f)%Q in
  let n := if Qltb d 0.5 then f
           else if Qltb 0.5 d then f + 1
           else if Z.even f then f else f + 1 in
  (inject_Z n / scale)%Q.

(** Exact rational arithmetic as a float unit; a second-order polynomial
    stands in for the exponential. *)
Definition exact_arith : FloatOps := {|
  fadd := Qplus; fmul := Qmult; fdiv := Qdiv;
  fexp := fun x => (1 + x + x * x / 2)%Q;
  fround := Qround_half_even;
  fdec := fun q => q
|}.

(** A generator whose state counts the draws made so far. *)
Definition counter_rng : RandomGen := {|
  rng_state := Z;
  rng_seed := fun a => a;
  rng_randint := fun a b g => (a + g mod (b - a + 1), g + 1);
  rng_random := fun g => ((inject_Z (g mod 10) / 10)%Q, g + 1);
  rng_choice := fun n g => (Z.to_nat (g mod Z.of_nat n), g + 1);
  rng_sample := fun n k g =>
    (map (fun j => Z.to_nat ((g + Z.of_nat j) mod Z.of_nat n)) (seq 0 k), g + 1);
  rng_choices := fun n k g =>
    (map (fun j => Z.to_nat ((g + Z.of_nat j) mod Z.of_nat n)) (seq 0 k), g + 1)
|}.

(** A classifier that gives every row the probability it was built with. *)
Definition constant_classifier (p : Q) : Classifier := {|
  fitted := unit;
  fit := fun _ _ => Ok tt;
  predict_proba1 := fun _ _ => p
|}.

(** The float unit of the machine, on the rationals that floats denote:
    [round64] rounds to 53 significant bits, to the nearest and a tie to
    the even one (the range of the exponent is not modelled); every
    operation returns the exact result rounded, and a decimal literal
    denotes its rounding. The exponential is a parameter. *)
Definition round64 (q : Q) : Q :=
  if Qeq_bool q 0 then 0%Q
  else
    let a := if Qltb q 0 then (- q)%Q else q in
    let e0 := Z.log2 (Z.abs (Qnum q)) - Z.log2 (Zpos (Qden q)) - 52 in
    let e := if Qltb (a / 2 ^ e0) (2 ^ 52) then e0 - 1
             else if Qle_bool (2 ^ 53) (a / 2 ^ e0) then e0 + 1
             else e0 in
    let m := Qround_half_even (a / 2 ^ e) 0 in
    Qred ((if Qltb q 0 then - m else m) * 2 ^ e)%Q.
Definition binary64_with (exp64 : Q -> Q) : FloatOps := {|
  fadd := fun a b => round64 (a + b);
  fmul := fun a b => round64 (a * b);
  fdiv := fun a b => round64 (a / b);
  fexp := exp64;
  fround := fun x n => round64 (Qround_half_even x n);
  fdec := round64
|}.

(** The float unit with the exponential taken near zero: the polynomial
    [1 + x + x^2/2], rounded. At [-2^-51], the one argument it is used
    at, it lies within [2^-150] of the exponential, and both round to
    [1 - 2^-51]. *)
Definition exp_near_zero (x : Q) : Q := round64 (1 + x + x * x / 2).
Definition binary64_arith : FloatOps := binary64_with exp_near_zero.

(** A generator that reads its draws from a list: the next number for
    [randint], the next number as hundredths for [random], the next
    numbers as positions for [choice] and [choices]; [sample] picks the
    first positions. *)
Definition scripted_rng : RandomGen := {|
  rng_state := list Z;
  rng_seed := fun _ => [];
  rng_randint := fun a _ g => (hd a g, tl g);
  rng_random := fun g => ((inject_Z (hd 0%Z g) / 100)%Q, tl g);
  rng_choice := fun _ g => (Z.to_nat (hd 0 g), tl g);
  rng_sample := fun _ k g => (seq 0 k, g);
  rng_choices := fun _ k g => (map Z.to_nat (take k g), drop k g)
|}.

(** ** Concrete orders and sessions *)

(** The order of the specification's scenario: same billing and shipping
    address, a disposable email domain, a phone of one repeated digit. *)
Definition scenario_order : gmap string value :=
  list_to_map
    [ ("order_id", VInt 1);
      ("billing_address", VStr "1 Green Street, CityX, 110001");
      ("shipping_address", VStr "1 Green Street, CityX, 110001");
      ("billing_pin", VInt 110001);
      ("shipping_pin", VInt 110001);
      ("email", VStr "abcde@tempmail.com");
      ("phone", VStr "0000000000");
      ("ip_address", VStr "1.1.1.1");
      ("amount", VInt 4500) ].

(** An order that triggers no rule on a fresh session. *)
Definition quiet_order : gmap string value :=
  list_to_map
    [ ("order_id", VInt 2);
      ("billing_address", VStr "2 Green Street, CityX, 110002");
      ("shipping_address", VStr "2 Green Street, CityX, 110002");
      ("billing_pin", VInt 110002);
      ("shipping_pin", VInt 110002);
      ("email", VStr "fghij@gmail.com");
      ("phone", VStr "9876543210");
      ("ip_address", VStr "2.2.2.2");
      ("amount", VInt 1000) ].

Definition session_of (queue : list (gmap string value)) (seen : gset value)
    : app.session_state :=
  {| app.new_orders := queue; app.processed_orders := []; app.seen_ips := seen |}.

(** A model that always answers one half, on the quiet order. *)
Definition quiet_run : result app.locals * app.session_state :=
  @app.score exact_arith (constant_classifier 0.5) tt quiet_order (session_of [] ∅).
Definition quiet_locals : app.locals :=
  ltac:(let r := eval vm_compute in (fst quiet_run) in
        match r with Ok ?l => exact l end).
Definition quiet_after : app.session_state := Eval vm_compute in snd quiet_run.

(** The scenario order queued twice, under a model that always answers
    zero: the two presses of the button. *)
Definition twice_queued : app.session_state :=
  session_of [scenario_order; scenario_order] ∅.
Definition first_press : result (option app.locals) * app.session_state :=
  @app.ingest_next_order exact_arith (constant_classifier 0) tt twice_queued.
Definition first_locals : app.locals :=
  ltac:(let r := eval vm_compute in (fst first_press) in
        match r with Ok (Some ?l) => exact l end).
Definition after_first : app.session_state := Eval vm_compute in snd first_press.
Definition second_press : result (option app.locals) * app.session_state :=
  @app.ingest_next_order exact_arith (constant_classifier 0) tt after_first.
Definition second_locals : app.locals :=
  ltac:(let r := eval vm_compute in (fst second_press) in
        match r with Ok (Some ?l) => exact l end).
Definition after_second : app.session_state := Eval vm_compute in snd second_press.

(** Orders that lack a key. *)
Definition order_without_email : gmap string value := delete "email" scenario_order.
Definition order_without_ip : gmap string value := delete "ip_address" quiet_order.
Definition bare_order : gmap string value :=
  list_to_map [ ("order_id", VInt 3); ("amount", VInt 250) ].

(** A session in which an order with an empty IP address was seen. *)
Definition seen_blank_ip : app.session_state := session_of [] {[ VStr "" ]}.


(** ** Concrete runs of the generator *)

(** One order generated in the float arithmetic of the machine from
    scripted draws: the IP address 10.0.0.1; the pin 110001, no same
    shipping address (0.90), the shipping pin 110002; a disposable domain
    (0.05), the first one; the letters abcde; the phone 9876543210, not
    marked (0.50); the amount 400. *)
Definition boundary_script : list Z :=
  [ 10; 0; 0; 1;
    110001; 90; 110002;
    5; 0;
    0; 1; 2; 3; 4;
    9; 8; 7; 6; 5; 4; 3; 2; 1; 0;
    50;
    400 ].
Definition boundary_run : result DataFrame * list Z :=
  @model.generate_mock_data scripted_rng binary64_arith 1 boundary_script.
Definition boundary_row : odict cell :=
  ltac:(let r := eval vm_compute in (fst boundary_run) in
        match r with Ok [?row] => exact row end).

(** Three orders, and the twenty orders of a queue, generated under the
    counting generator from the state 0. *)
Definition three_orders_run : result DataFrame * Z :=
  @model.generate_mock_data counter_rng exact_arith 3 0.
Definition three_orders : DataFrame :=
  ltac:(let r := eval vm_compute in (fst three_orders_run) in
        match r with Ok ?df => exact df end).
Definition after_three_orders : Z := Eval vm_compute in snd three_orders_run.
Definition first_of_three : odict cell :=
  Eval vm_compute in default [] (three_orders !! 0%nat).
Definition second_of_three : odict cell :=
  Eval vm_compute in default [] (three_orders !! 1%nat).
Definition twenty_orders_run : result DataFrame * Z :=
  @model.generate_mock_data counter_rng exact_arith 20 0.
Definition twenty_orders : DataFrame :=
  ltac:(let r := eval vm_compute in (fst twenty_orders_run) in
        match r with Ok ?df => exact df end).
Definition after_twenty_orders : Z := Eval vm_compute in snd twenty_orders_run.
Definition first_of_twenty : odict cell :=
  Eval vm_compute in default [] (twenty_orders !! 0%nat).
Definition second_of_twenty : odict cell :=
  Eval vm_compute in default [] (twenty_orders !! 1%nat).

(** * Properties *)

(** ** Strings *)

Lemma startswith_spec s p : PyStr.startswith s p = true <-> has_prefix p s.
Proof.
  revert s. induction p as [|a p IH]; intros s; simpl.
  - split; [intros _; exists s; reflexivity | reflexivity].
  - destruct s as [|b s]; simpl.
    + split; [discriminate | intros [r Hr]; discriminate].
    + rewrite andb_true_iff, Ascii.eqb_eq, IH. split.
      * intros [-> [r ->]]. exists r. reflexivity.
      * intros [r Hr]. injection Hr as -> ->. split; [reflexivity | exists r; reflexivity].
Qed.

Lemma length_append s t : String.length (s +:+ t) = (String.length s + String.length t)%nat.
Proof. induction s; simpl; [reflexivity | now rewrite IHs]. Qed.

Lemma drop_append r q : PyStr.drop (String.length r) (r +:+ q) = q.
Proof. induction r; simpl; auto. Qed.

Lemma drop_split n s : exists r, s = r +:+ PyStr.drop n s.
Proof.
  revert s. induction n as [|n IH]; intros s.
  - exists EmptyString. reflexivity.
  - destruct s as [|c s].
    + exists EmptyString. reflexivity.
    + destruct (IH s) as [r Hr]. exists (String c r).
      change (String c s = String c (r +:+ PyStr.drop n s)). now rewrite <- Hr.
Qed.

Lemma endswith_spec s q : PyStr.endswith s q = true <-> has_suffix q s.
Proof.
  unfold PyStr.endswith. rewrite andb_true_iff, Nat.leb_le, String.eqb_eq. split.
  - intros [Hle Heq]. destruct (drop_split (String.length s - String.length q) s) as [r Hr].
    exists r. rewrite Heq in Hr. exact Hr.
  - intros [r ->]. rewrite length_append. split; [lia|].
    replace (String.length r + String.length q - String.length q)%nat with (String.length r) by lia.
    apply drop_append.
Qed.

Lemma count_bounds c s : 0 <= PyStr.count c s <= PyStr.len s.
Proof.
  unfold PyStr.len. induction s as [|d s IH]; simpl String.length; simpl PyStr.count; [lia|].
  destruct (Ascii.eqb d c); lia.
Qed.

Lemma count_full c s : PyStr.count c s = PyStr.len s <-> (forall d, In d (chars s) -> d = c).
Proof.
  unfold PyStr.len. induction s as [|d s IH]; simpl String.length; simpl PyStr.count; simpl chars.
  - split; [intros _ d [] | reflexivity].
  - pose proof (count_bounds c s) as Hb. unfold PyStr.len in Hb.
    destruct (Ascii.eqb d c) eqn:E.
    + apply Ascii.eqb_eq in E. subst d. split.
      * intros Hc x [<- | Hx]; [reflexivity|]. apply IH; [lia | exact Hx].
      * intros Hall. assert (PyStr.count c s = Z.of_nat (String.length s)) by (apply IH; intros x Hx; apply Hall; now right). lia.
    + apply Ascii.eqb_neq in E. split; [lia|]. intros Hall. exfalso. apply E. apply Hall. now left.
Qed.

Lemma append_empty_r s : s +:+ "" = s.
Proof. induction s as [|c s IH]; [reflexivity|]. change (String c (s +:+ "") = String c s). now rewrite IH. Qed.

Lemma split_no_sep sep s : ~ In sep (chars s) -> PyStr.split sep s = [s].
Proof.
  induction s as [|c s IH]; simpl; [reflexivity|]. intros Hn.
  destruct (Ascii.eqb c sep) eqn:E.
  - apply Ascii.eqb_eq in E. exfalso. apply Hn. now left.
  - rewrite IH; [reflexivity|]. intros Hin. apply Hn. now right.
Qed.

Lemma split_at_sep sep pre rest :
  ~ In sep (chars pre) ->
  PyStr.split sep (pre +:+ String sep rest) = pre :: PyStr.split sep rest.
Proof.
  induction pre as [|c pre IH]; intros Hn.
  - simpl. now rewrite Ascii.eqb_refl.
  - change (String c pre +:+ String sep rest) with (String c (pre +:+ String sep rest)).
    simpl. destruct (Ascii.eqb c sep) eqn:E.
    + apply Ascii.eqb_eq in E. exfalso. apply Hn. now left.
    + rewrite IH; [reflexivity|]. intros Hin. apply Hn. now right.
Qed.

Lemma first_sep sep s :
  In sep (chars s) ->
  exists pre rest, s = pre +:+ String sep rest /\ ~ In sep (chars pre).
Proof.
  induction s as [|c s IH]; simpl; [intros []|]. intros Hin.
  destruct (Ascii.eqb c sep) eqn:E.
  - apply Ascii.eqb_eq in E. subst c. exists EmptyString, s. split; [reflexivity | intros []].
  - apply Ascii.eqb_neq in E. destruct Hin as [Hc | Hin]; [contradiction|].
    destruct (IH Hin) as (pre & rest & -> & Hpre). exists (String c pre), rest.
    split; [reflexivity|]. intros [Hc | Hc]; [contradiction | now apply Hpre].
Qed.

Lemma In_sep_dec (sep : ascii) (s : string) : {In sep (chars s)} + {~ In sep (chars s)}.
Proof. apply in_dec, Ascii.ascii_dec. Defined.

(** The second piece of a split, when there is one, is the text between
    the first separator and the next one (or the end). *)
Lemma split_second sep s piece :
  PyStr.split sep s !! 1%nat = Some piece <->
  exists pre rest,
    s = pre +:+ String sep (piece +:+ rest)
    /\ ~ In sep (chars pre) /\ ~ In sep (chars piece)
    /\ (rest = "" \/ has_prefix (String sep "") rest).
Proof.
  split.
  - intros Hs. destruct (In_sep_dec sep s) as [Hin | Hn].
    2: { rewrite split_no_sep in Hs by assumption. discriminate. }
    destruct (first_sep sep s Hin) as (pre & tl & -> & Hpre).
    rewrite split_at_sep in Hs by assumption. simpl in Hs.
    exists pre. destruct (In_sep_dec sep tl) as [Hin2 | Hn2].
    + destruct (first_sep sep tl Hin2) as (d & r & -> & Hd).
      rewrite split_at_sep in Hs by assumption. injection Hs as <-.
      exists (String sep r). repeat split; try assumption. right. exists r. reflexivity.
    + rewrite split_no_sep in Hs by assumption. injection Hs as <-.
      exists "". rewrite append_empty_r. repeat split; try assumption. now left.
  - intros (pre & rest & -> & Hpre & Hd & Hrest).
    rewrite split_at_sep by assumption. simpl.
    destruct Hrest as [-> | [r ->]].
    + rewrite append_empty_r, split_no_sep by assumption. reflexivity.
    + change (String sep "" +:+ r) with (String sep r).
      rewrite split_at_sep by assumption. reflexivity.
Qed.

(** ** The rules *)

(** C8. A phone is suspicious exactly when it has fewer than four
    characters, or all its characters equal the first one, or it starts
    with "000" or "999", or it ends with "0000" or "1111". *)
Theorem phone_rule (phone : string) :
  rules.is_suspicious_phone phone = true <->
    (String.length phone < 4)%nat
    \/ all_equal_first phone
    \/ has_prefix "000" phone \/ has_prefix "999" phone
    \/ has_suffix "0000" phone \/ has_suffix "1111" phone.
Proof.
  unfold rules.is_suspicious_phone.
  destruct (PyStr.len phone <? 4) eqn:Hlen.
  - apply Z.ltb_lt in Hlen. unfold PyStr.len in Hlen. split; [intros _; left; lia | reflexivity].
  - apply Z.ltb_ge in Hlen. unfold PyStr.len in Hlen.
    destruct phone as [|c0 rest] eqn:Hp; [simpl in Hlen; lia|]. rewrite <- Hp in *.
    assert (Hall : PyStr.count c0 phone = PyStr.len phone <-> all_equal_first phone).
    { rewrite count_full. unfold all_equal_first. rewrite Hp. simpl. split.
      - intros Hd c Hc. f_equal. symmetry. now apply Hd.
      - intros Hd d Hc. specialize (Hd d Hc). now injection Hd. }
    destruct (PyStr.count c0 phone =? PyStr.len phone) eqn:Hcount.
    { apply Z.eqb_eq in Hcount. split; [intros _; right; left; now apply Hall | reflexivity]. }
    apply Z.eqb_neq in Hcount.
    destruct (PyStr.startswith phone "000") eqn:H0.
    { apply startswith_spec in H0. simpl. split; [tauto | reflexivity]. }
    destruct (PyStr.startswith phone "999") eqn:H9.
    { apply startswith_spec in H9. simpl. split; [tauto | reflexivity]. }
    destruct (PyStr.endswith phone "0000") eqn:E0.
    { apply endswith_spec in E0. simpl. split; [tauto | reflexivity]. }
    destruct (PyStr.endswith phone "1111") eqn:E1.
    { apply endswith_spec in E1. simpl. split; [tauto | reflexivity]. }
    simpl. split; [discriminate|].
    intros [Hl | [Ha | [Hx | [Hx | [Hx | Hx]]]]].
    + lia.
    + now apply Hall in Ha.
    + apply startswith_spec in Hx. congruence.
    + apply startswith_spec in Hx. congruence.
    + apply endswith_spec in Hx. congruence.
    + apply endswith_spec in Hx. congruence.
Qed.

(** C6, as the code has it. An email is suspicious exactly when it
    contains an '@' and the text between the first '@' and the next one
    (or the end of the email, when there is no second '@'), lower-cased,
    is a disposable domain. An email without '@' is not suspicious. *)
Theorem email_rule (email : string) :
  (rules.is_suspicious_email email = true <->
     exists pre domain rest,
       email = pre +:+ "@" +:+ domain +:+ rest
       /\ ~ In "@"%char (chars pre) /\ ~ In "@"%char (chars domain)
       /\ (rest = "" \/ has_prefix "@" rest)
       /\ PyStr.lower domain ∈ rules.DISPOSABLE_DOMAINS)
  /\ (~ In "@"%char (chars email) -> rules.is_suspicious_email email = false).
Proof.
  unfold rules.is_suspicious_email. split.
  - destruct (PyStr.split "@" email !! 1%nat) as [piece|] eqn:Hs.
    + rewrite bool_decide_eq_true. apply split_second in Hs.
      destruct Hs as (pre & rest & Heq & Hpre & Hd & Hrest). split.
      * intros Hin. exists pre, piece, rest. auto.
      * intros (pre' & d' & rest' & Heq' & Hpre' & Hd' & Hrest' & Hin).
        assert (Hs' : PyStr.split "@" email !! 1%nat = Some d').
        { apply split_second. exists pre', rest'. auto. }
        assert (Hs : PyStr.split "@" email !! 1%nat = Some piece).
        { apply split_second. exists pre, rest. auto. }
        congruence.
    + split; [discriminate|].
      intros (pre' & d' & rest' & Heq' & Hpre' & Hd' & Hrest' & Hin).
      assert (Hs' : PyStr.split "@" email !! 1%nat = Some d').
      { apply split_second. exists pre', rest'. auto. }
      congruence.
  - intros Hn. rewrite split_no_sep by assumption. reflexivity.
Qed.

(** C6, the claim as stated fails: the rule does not look at all of the
    text after the first '@'. For "a@tempmail.com@x" that text is
    "tempmail.com@x", which is no disposable domain, and yet the email is
    suspicious. *)
Lemma email_rule_not_after_first_at :
  ~ (forall email : string,
       rules.is_suspicious_email email = true <->
       exists pre post,
         email = pre +:+ "@" +:+ post
         /\ ~ In "@"%char (chars pre)
         /\ PyStr.lower post ∈ rules.DISPOSABLE_DOMAINS).
Proof.
  intros H. destruct (H "a@tempmail.com@x") as [Hcode _].
  destruct (Hcode eq_refl) as (pre & post & Heq & Hpre & Hin).
  destruct pre as [|c pre]; cbv [String.append] in Heq; [discriminate|].
  fold String.append in Heq. injection Heq as <- Heq.
  destruct pre as [|c pre]; cbv [String.append] in Heq.
  - injection Heq as <-. revert Hin.
    apply (proj1 (bool_decide_eq_false _)). vm_compute. reflexivity.
  - injection Heq as <- _. apply Hpre. right. left. reflexivity.
Qed.

Lemma apply_rules_cases order seen :
  (exists email phone,
     get_default order "email" (VStr "") = VStr email
     /\ get_default order "phone" (VStr "") = VStr phone
     /\ rules.apply_rules order seen = (Ok (rule_flags order seen email phone), seen))
  \/ (~ rule_inputs_ok order
      /\ exists e, rules.apply_rules order seen = (Raise e, seen)
                   /\ (e = AttributeError \/ e = TypeError)).
Proof.
  unfold rules.apply_rules, rule_inputs_ok, is_str, bind, as_str, rule_flags, order_ip.
  destruct (get_default order "email" (VStr "")) as [email | z] eqn:He.
  - destruct (get_default order "phone" (VStr "")) as [phone | z] eqn:Hp.
    + left. exists email, phone. repeat split; reflexivity.
    + right. split.
      * intros [_ [s Hs]]. discriminate.
      * exists TypeError. split; [reflexivity | now right].
  - right. split.
    + intros [[s Hs] _]. discriminate.
    + exists AttributeError. split; [reflexivity | now left].
Qed.

(** C9. Evaluating the rules leaves the seen-IP set as it was, whether
    the evaluation returns or raises. When it returns, repeated_ip is true
    exactly when the IP address of the order (the empty string for an
    order without one) is in the set. Evaluating two times in a row gives
    the same flags two times. The evaluation returns whenever the email
    and the phone of the order are strings or absent. *)
Theorem apply_rules_frame order seen :
  snd (rules.apply_rules order seen) = seen
  /\ (forall flags, fst (rules.apply_rules order seen) = Ok flags ->
        (odict_lookup flags "repeated_ip" = Some true <-> order_ip order ∈ seen)
        /\ (odict_lookup flags "repeated_ip" = Some false <-> order_ip order ∉ seen))
  /\ twice (rules.apply_rules order) seen =
       (match fst (rules.apply_rules order seen) with
        | Ok flags => Ok (flags, flags)
        | Raise e => Raise e
        end, seen)
  /\ (rule_inputs_ok order -> exists flags, rules.apply_rules order seen = (Ok flags, seen)).
Proof.
  destruct (apply_rules_cases order seen) as [(email & phone & He & Hp & Hr) | (Hn & e & Hr & _)].
  - unfold twice, bind. rewrite !Hr. simpl. split; [reflexivity|]. split; [|split; [reflexivity | eauto]].
    intros fl [= <-]. simpl. split.
    + split; [intros [= Hb]; now apply bool_decide_eq_true in Hb
             | intros Hin; f_equal; now apply bool_decide_eq_true].
    + split; [intros [= Hb]; now apply bool_decide_eq_false in Hb
             | intros Hin; f_equal; now apply bool_decide_eq_false].
  - unfold twice, bind. rewrite !Hr. simpl. split; [reflexivity|]. split; [discriminate|].
    split; [reflexivity | intros Hok; contradiction].
Qed.

Lemma get_default_with_defaults order key :
  get_default (with_defaults order) key (VStr "") = get_default order key (VStr "").
Proof.
  unfold with_defaults. simpl.
  assert (Hfill : forall k o, get_default (fill_default k o) key (VStr "") = get_default o key (VStr "")).
  { intros k o. unfold fill_default, get_default.
    destruct (o !! k) eqn:Hk; [reflexivity|].
    destruct (decide (k = key)) as [-> | Hne].
    - rewrite lookup_insert_eq, Hk. reflexivity.
    - rewrite lookup_insert_ne by assumption. reflexivity. }
  rewrite !Hfill. reflexivity.
Qed.

Lemma with_defaults_present order key :
  key ∈ ["billing_address"; "shipping_address"; "email"; "phone"; "ip_address"] ->
  is_Some (with_defaults order !! key).
Proof.
  assert (Hkeep : forall k o, is_Some (o !! key) -> is_Some (fill_default k o !! key)).
  { intros k o Hs. unfold fill_default. destruct (o !! k); [assumption|].
    destruct (decide (k = key)) as [-> | Hne].
    - rewrite lookup_insert_eq. eauto.
    - now rewrite lookup_insert_ne. }
  assert (Hput : forall o, is_Some (fill_default key o !! key)).
  { intros o. unfold fill_default. destruct (o !! key) eqn:Hk; [rewrite Hk; eauto|].
    rewrite lookup_insert_eq. eauto. }
  unfold with_defaults. simpl. rewrite !elem_of_cons, elem_of_nil.
  intros [-> | [-> | [-> | [-> | [-> | []]]]]]; auto 10.
Qed.

Lemma with_defaults_keeps order key v :
  order !! key = Some v -> with_defaults order !! key = Some v.
Proof.
  assert (Hkeep : forall k o, o !! key = Some v -> fill_default k o !! key = Some v).
  { intros k o Hs. unfold fill_default. destruct (o !! k) eqn:Hk; [assumption|].
    rewrite lookup_insert_ne; [assumption | congruence]. }
  intros Hv. unfold with_defaults. simpl. auto 10.
Qed.

Lemma with_defaults_adds order key v :
  order !! key = None -> with_defaults order !! key = Some v -> v = VStr "".
Proof.
  assert (Hstep : forall k o,
            (o !! key = None \/ o !! key = Some (VStr "")) ->
            (fill_default k o !! key = None \/ fill_default k o !! key = Some (VStr ""))).
  { intros k o Ho. unfold fill_default. destruct (o !! k) eqn:Hk; [assumption|].
    destruct (decide (k = key)) as [-> | Hne].
    - right. apply lookup_insert_eq.
    - now rewrite lookup_insert_ne. }
  intros Hnone Hv.
  assert (Hall : with_defaults order !! key = None
                 \/ with_defaults order !! key = Some (VStr "")).
  { unfold with_defaults. simpl. auto 10. }
  destruct Hall as [Hall | Hall]; rewrite Hall in Hv; congruence.
Qed.

Lemma inputs_ok_of_typed order :
  (forall v, order !! "email" = Some v -> is_str v) ->
  (forall v, order !! "phone" = Some v -> is_str v) ->
  rule_inputs_ok order.
Proof.
  intros He Hp. unfold rule_inputs_ok, get_default. split.
  - destruct (order !! "email") as [v|]; [now apply He | now exists ""].
  - destruct (order !! "phone") as [v|]; [now apply Hp | now exists ""].
Qed.

(** Evaluating the rules on an order and on the order with its absent
    fields set to the empty string gives the same flags. *)
Lemma apply_rules_defaults order seen :
  rule_inputs_ok order ->
  exists email phone,
    get_default order "email" (VStr "") = VStr email
    /\ get_default order "phone" (VStr "") = VStr phone
    /\ rules.apply_rules order seen = (Ok (rule_flags order seen email phone), seen)
    /\ rules.apply_rules (with_defaults order) seen
         = (Ok (rule_flags order seen email phone), seen).
Proof.
  intros Hok.
  destruct (apply_rules_cases order seen) as [(email & phone & Hem & Hph & Hr) | (Hn & _)];
    [| contradiction].
  exists email, phone. repeat (split; [assumption|]).
  destruct (apply_rules_cases (with_defaults order) seen)
    as [(email' & phone' & Hem' & Hph' & Hr') | (Hn & _)].
  - rewrite Hr'. rewrite get_default_with_defaults in Hem', Hph'.
    rewrite Hem in Hem'. rewrite Hph in Hph'. injection Hem' as <-. injection Hph' as <-.
    unfold rule_flags, order_ip. rewrite !get_default_with_defaults. reflexivity.
  - exfalso. apply Hn. unfold rule_inputs_ok. rewrite !get_default_with_defaults. exact Hok.
Qed.

(** C10. For every order whose email and phone, when present, are
    strings, [apply_rules] returns the flags without raising, whichever
    of the keys billing_address, shipping_address, email, phone and
    ip_address the order lacks, and the flags are those of the order with
    the empty string stored under each absent key. In particular, without
    both addresses mismatch is false, without an email suspicious_email is
    false, and without a phone suspicious_phone is true. *)
Theorem apply_rules_missing_keys order seen :
  (forall v, order !! "email" = Some v -> is_str v) ->
  (forall v, order !! "phone" = Some v -> is_str v) ->
  exists flags,
    rules.apply_rules order seen = (Ok flags, seen)
    /\ rules.apply_rules (with_defaults order) seen = (Ok flags, seen)
    /\ (forall key,
          key ∈ ["billing_address"; "shipping_address"; "email"; "phone"; "ip_address"] ->
          is_Some (with_defaults order !! key))
    /\ (forall key v, order !! key = Some v -> with_defaults order !! key = Some v)
    /\ (forall key v, order !! key = None -> with_defaults order !! key = Some v ->
          v = VStr "")
    /\ map fst flags = rule_names
    /\ (order !! "billing_address" = None -> order !! "shipping_address" = None ->
        odict_lookup flags "mismatch" = Some false)
    /\ (order !! "email" = None -> odict_lookup flags "suspicious_email" = Some false)
    /\ (order !! "phone" = None -> odict_lookup flags "suspicious_phone" = Some true).
Proof.
  intros He Hp.
  destruct (apply_rules_defaults order seen (inputs_ok_of_typed order He Hp))
    as (email & phone & Hem & Hph & Hr & Hr').
  eexists. split; [exact Hr|]. split; [exact Hr'|].
  split; [apply with_defaults_present|].
  split; [apply with_defaults_keeps|].
  split; [apply with_defaults_adds|].
  unfold rule_flags. simpl. unfold get_default in *. repeat split.
  - intros -> ->. reflexivity.
  - intros Hnone. rewrite Hnone in Hem. injection Hem as <-. reflexivity.
  - intros Hnone. rewrite Hnone in Hph. injection Hph as <-. reflexivity.
Qed.

(** ** The monad *)

Lemma bind_Ok {S A B} (m : Exec S A) (k : A -> Exec S B) s a s1 :
  m s = (Ok a, s1) -> bind m k s = k a s1.
Proof. unfold bind. now intros ->. Qed.

Lemma bind_Raise {S A B} (m : Exec S A) (k : A -> Exec S B) s e s1 :
  m s = (Raise e, s1) -> bind m k s = (Raise e, s1).
Proof. unfold bind. now intros ->. Qed.

Lemma getitem_Some {S V} (d : gmap string V) key v (s : S) :
  d !! key = Some v -> getitem d key s = (Ok v, s).
Proof. unfold getitem. now intros ->. Qed.

Lemma getitem_None {S V} (d : gmap string V) key (s : S) :
  d !! key = None -> getitem d key s = (Raise (KeyError key), s).
Proof. unfold getitem. now intros ->. Qed.



(** ** The handler *)

Section handler.
Context `{FloatOps} `{Classifier}.
Import app.

Lemma zoom_apply_rules order st r :
  rules.apply_rules order (seen_ips st) = (r, seen_ips st) ->
  zoom seen_ips set_seen_ips (rules.apply_rules order) st = (r, st).
Proof. unfold zoom. intros ->. destruct st. reflexivity. Qed.

Ltac exec_step :=
  first
    [ erewrite bind_Ok by (apply getitem_Some; eassumption)
    | erewrite bind_Raise by (apply getitem_None; eassumption)
    | erewrite bind_Ok by reflexivity
    | erewrite bind_Raise by reflexivity ].

Lemma score_cases model order st :
  (exists e, ~ rule_inputs_ok order /\ score model order st = (Raise e, st)
             /\ (e = AttributeError \/ e = TypeError))
  \/ (exists key, first_missing order = Some key
                  /\ (key = "amount" \/ exists a, order !! "amount" = Some (VInt a))
                  /\ score model order st = (Raise (KeyError key), st))
  \/ (exists s, order !! "amount" = Some (VStr s)
                /\ score model order st = (Raise TypeError, st))
  \/ (first_missing order = None /\ order !! "ip_address" = None
      /\ exists entry,
           score model order st =
             (Raise (KeyError "ip_address"),
              set_processed_orders (processed_orders st ++ [entry]) st))
  \/ (exists l st', score model order st = (Ok l, st') /\ scored model order st l st').
Proof.
  destruct (apply_rules_cases order (seen_ips st))
    as [(email & phone & Hem & Hph & Hr) | (Hn & e & Hr & He)].
  2: { left. exists e. split; [assumption|]. split; [|assumption].
       unfold score. rewrite (bind_Raise _ _ _ _ _ (zoom_apply_rules _ _ _ Hr)). reflexivity. }
  right. unfold score. rewrite (bind_Ok _ _ _ _ _ (zoom_apply_rules _ _ _ Hr)).
  unfold rule_flags at 1 2 3 4.
  destruct (order !! "amount") as [[s | a] |] eqn:Ha.
  - right. left. exists s. split; [reflexivity|]. repeat exec_step. reflexivity.
  - destruct (order !! "order_id") as [oid|] eqn:Ho.
    2: { left. eexists. split; [unfold first_missing, absent; simpl; rewrite Ha, Ho; reflexivity|].
         split; [right; eauto|]. repeat exec_step. reflexivity. }
    destruct (order !! "email") as [em|] eqn:He.
    2: { left. eexists. split; [unfold first_missing, absent; simpl; rewrite Ha, Ho, He; reflexivity|].
         split; [right; eauto|]. repeat exec_step. reflexivity. }
    destruct (order !! "phone") as [ph|] eqn:Hp.
    2: { left. eexists. split; [unfold first_missing, absent; simpl; rewrite Ha, Ho, He, Hp; reflexivity|].
         split; [right; eauto|]. repeat exec_step. reflexivity. }
    destruct (order !! "billing_address") as [bi|] eqn:Hb.
    2: { left. eexists. split; [unfold first_missing, absent; simpl; rewrite Ha, Ho, He, Hp, Hb; reflexivity|].
         split; [right; eauto|]. repeat exec_step. reflexivity. }
    destruct (order !! "shipping_address") as [sh|] eqn:Hs.
    2: { left. eexists. split; [unfold first_missing, absent; simpl; rewrite Ha, Ho, He, Hp, Hb, Hs; reflexivity|].
         split; [right; eauto|]. repeat exec_step. reflexivity. }
    assert (Hfm : first_missing order = None).
    { unfold first_missing, absent; simpl; rewrite Ha, Ho, He, Hp, Hb, Hs; reflexivity. }
    right. right.
    destruct (order !! "ip_address") as [ip|] eqn:Hi.
    + right. repeat exec_step. eexists _, _. split; [reflexivity|].
      exists email, phone, a, ip. eexists. cbn [flags features risk_prob risk_percent flagged result_entry].
      unfold rule_names. cbn [map odict_lookup String.eqb Ascii.eqb Bool.eqb default app].
      repeat (split; [first [assumption | reflexivity] |]).
      split; [| split; [| destruct st; reflexivity]].
      * destruct (map _ _); reflexivity.
      * destruct (map _ _); reflexivity.
    + left. split; [assumption|]. split; [reflexivity|]. repeat exec_step.
      eexists. reflexivity.
  - left. exists "amount". split; [unfold first_missing, absent; simpl; rewrite Ha; reflexivity|].
    split; [now left|]. repeat exec_step. reflexivity.
Qed.

Lemma score_Ok_inv model order st l st' :
  score model order st = (Ok l, st') -> scored model order st l st'.
Proof.
  intros Hs.
  destruct (score_cases model order st)
    as [(e & _ & Hr & _) | [(k & _ & _ & Hr) | [(s & _ & Hr)
       | [(_ & _ & entry & Hr) | (l0 & st0 & Hr & Hsc)]]]];
    rewrite Hr in Hs; try discriminate.
  now injection Hs as <- <-.
Qed.

Lemma flagged_rules_of_score model order st l st' :
  score model order st = (Ok l, st') ->
  rules.apply_rules order (seen_ips st) = (Ok (flags l), seen_ips st).
Proof.
  intros Hs. apply score_Ok_inv in Hs.
  destruct Hs as (email & phone & ? & ? & ? & Hem & Hph & _ & _ & _ & Hfl & _).
  destruct (apply_rules_cases order (seen_ips st))
    as [(email' & phone' & Hem' & Hph' & Hr) | (Hn & _)].
  - rewrite Hr, Hfl. congruence.
  - exfalso. apply Hn. split; [exists email | exists phone]; assumption.
Qed.

Lemma score_complete model order st :
  rule_inputs_ok order -> amount_ok order -> first_missing order = None ->
  is_Some (order !! "ip_address") ->
  exists l st', score model order st = (Ok l, st').
Proof.
  intros Hok Ham Hfm [ip Hip].
  destruct (score_cases model order st)
    as [(e & Hn & _) | [(k & Hk & _) | [(s & Ha & _)
       | [(_ & Hi & _) | (l0 & st0 & Hr & _)]]]].
  - contradiction.
  - congruence.
  - destruct (Ham _ Ha) as [a Hv]. discriminate.
  - congruence.
  - eauto.
Qed.

(** Whatever the outcome, [score] leaves the queue alone, only adds to
    the seen-IP set and only appends to the processed orders. *)
Lemma score_store model order st :
  new_orders (score model order st).2 = new_orders st
  /\ seen_ips st ⊆ seen_ips (score model order st).2
  /\ exists more,
       processed_orders (score model order st).2 = processed_orders st ++ more.
Proof.
  destruct (score_cases model order st)
    as [(e & _ & Hr & _) | [(k & _ & _ & Hr) | [(s & _ & Hr)
       | [(_ & _ & entry & Hr) | (l0 & st0 & Hr & Hsc)]]]];
    rewrite Hr; cbn [snd].
  1-3: split; [reflexivity|]; split; [reflexivity|]; exists []; now rewrite app_nil_r.
  - split; [reflexivity|]. split; [reflexivity|]. eexists. reflexivity.
  - destruct Hsc as (? & ? & ? & ip & ? & _ & _ & _ & _ & _ & _ & _ & _ & _ & _ & _ & _ & _ & ->).
    cbn. split; [reflexivity|]. split; [set_solver|]. eexists. reflexivity.
Qed.

Lemma ingest_nonempty model st next_order rest :
  new_orders st = next_order :: rest ->
  ingest_next_order model st =
    (match (score model next_order (set_new_orders rest st)).1 with
     | Ok l => Ok (Some l)
     | Raise e => Raise e
     end, (score model next_order (set_new_orders rest st)).2).
Proof.
  intros Hq. unfold ingest_next_order, bind, get, put, ret. rewrite Hq.
  destruct (score model next_order (set_new_orders rest st)) as [[l | e] st']; reflexivity.
Qed.

Lemma ingest_empty model st :
  new_orders st = [] -> ingest_next_order model st = (Ok None, st).
Proof. intros Hq. unfold ingest_next_order, bind, get, ret. now rewrite Hq. Qed.

Lemma handler_step_seen_ips model st st' :
  handler_step model st st' -> seen_ips st ⊆ seen_ips st'.
Proof.
  intros [r Hr]. destruct (new_orders st) as [| next_order rest] eqn:Hq.
  - rewrite ingest_empty in Hr by assumption. now injection Hr as _ <-.
  - rewrite (ingest_nonempty _ _ _ _ Hq) in Hr. injection Hr as _ <-.
    apply (score_store model next_order (set_new_orders rest st)).
Qed.

Lemma handler_steps_seen_ips model st st' :
  rtc (handler_step model) st st' -> seen_ips st ⊆ seen_ips st'.
Proof.
  induction 1 as [| st st1 st2 Hstep _ IH]; [reflexivity|].
  etrans; [eapply handler_step_seen_ips; eassumption | exact IH].
Qed.

Lemma ingest_Ok_inv model st next_order rest l st' :
  new_orders st = next_order :: rest ->
  ingest_next_order model st = (Ok (Some l), st') ->
  score model next_order (set_new_orders rest st) = (Ok l, st').
Proof.
  intros Hq Hr. rewrite (ingest_nonempty _ _ _ _ Hq) in Hr.
  destruct (score model next_order (set_new_orders rest st)) as [[l0 | e] st0];
    cbn in Hr; [| discriminate].
  now injection Hr as <- <-.
Qed.

Lemma any_rule_flag b1 b2 b3 b4 :
  let d := [ ("mismatch", b1); ("suspicious_email", b2);
             ("suspicious_phone", b3); ("repeated_ip", b4) ] in
  any (odict_values d) = true <-> exists name, odict_lookup d name = Some true.
Proof.
  cbn zeta. split.
  - destruct b1; [exists "mismatch"; reflexivity|].
    destruct b2; [exists "suspicious_email"; reflexivity|].
    destruct b3; [exists "suspicious_phone"; reflexivity|].
    destruct b4; [exists "repeated_ip"; reflexivity|].
    discriminate.
  - intros [name Hn]. cbn [odict_lookup] in Hn.
    repeat match type of Hn with
           | context [String.eqb ?k name] =>
               destruct (String.eqb k name);
               [injection Hn as ->; cbn; rewrite ?orb_true_r; reflexivity|]
           end.
    discriminate.
Qed.

(** C1. For every order that the handler scores, the verdict is
    "flagged" exactly when the risk percentage is at least 50.0 or one
    of the four rule flags is true. The flags are those of the Rule
    Evaluator on the seen-IP set as it was before the order, the risk
    percentage is the rounded model probability, and the entry shown to
    the user carries the verdict. In particular the threshold is
    inclusive, and one true flag suffices whatever the model says. *)
Theorem flagged_iff_threshold_or_rule model order st l st' :
  score model order st = (Ok l, st') ->
  rules.apply_rules order (seen_ips st) = (Ok (flags l), seen_ips st)
  /\ map fst (flags l) = rule_names
  /\ (exists x, features l = [x]
                /\ risk_percent l = fround (fmul (predict_proba1 model x) 100) 2)
  /\ (flagged l = true <->
        (50 <= risk_percent l)%Q
        \/ exists name, odict_lookup (flags l) name = Some true)
  /\ odict_lookup (result_entry l) "Flagged"
       = Some (CValue (VStr (if flagged l then "Yes" else "No")))
  /\ ((forall name, odict_lookup (flags l) name <> Some true) ->
        (risk_percent l == 50)%Q -> flagged l = true)
  /\ ((exists name, odict_lookup (flags l) name = Some true) -> flagged l = true).
Proof.
  intros Hs. apply score_Ok_inv in Hs.
  destruct Hs as (email & phone & a & ip & x & Hem & Hph & Ha & Hi & Hfm & Hfl & Hx
                  & Hfe & Hrp & Hpc & Hfg & Hen & _ & _).
  assert (Hiff : flagged l = true <->
                 (50 <= risk_percent l)%Q
                 \/ exists name, odict_lookup (flags l) name = Some true).
  { rewrite Hfg, orb_true_iff, Qle_bool_iff. rewrite Hfl. unfold rule_flags.
    rewrite any_rule_flag. unfold threshold.
    assert (H50 : (50.0 == 50)%Q) by reflexivity. rewrite H50. reflexivity. }
  split.
  { destruct (apply_rules_cases order (seen_ips st))
      as [(email' & phone' & Hem' & Hph' & Hr) | (Hn & _)].
    - rewrite Hr, Hfl. congruence.
    - exfalso. apply Hn. split; [exists email | exists phone]; assumption. }
  split; [rewrite Hfl; reflexivity|].
  split; [exists x; split; [assumption | now rewrite Hpc, Hrp]|].
  split; [exact Hiff|]. split; [exact Hen|]. split.
  - intros _ H50. apply Hiff. left. rewrite H50. apply Qle_refl.
  - intros Hex. apply Hiff. now right.
Qed.

(** C2. The handler adds the IP of an order to the seen-IP set after
    the flags of that order were computed on the set as it was: an order
    whose IP was not in the set has repeated_ip false, its IP is in the
    set from then on, and an order with the same IP that is ingested
    later, after any number of presses of the button, has repeated_ip
    true. *)
Theorem repeated_ip_second_order_only
    model st0 st1 st2 st3 o1 o2 q1 q2 l1 l2 ip :
  new_orders st0 = o1 :: q1 ->
  o1 !! "ip_address" = Some ip ->
  ip ∉ seen_ips st0 ->
  ingest_next_order model st0 = (Ok (Some l1), st1) ->
  rtc (handler_step model) st1 st2 ->
  new_orders st2 = o2 :: q2 ->
  o2 !! "ip_address" = Some ip ->
  ingest_next_order model st2 = (Ok (Some l2), st3) ->
  rules.apply_rules o1 (seen_ips st0) = (Ok (flags l1), seen_ips st0)
  /\ odict_lookup (flags l1) "repeated_ip" = Some false
  /\ seen_ips st1 = {[ ip ]} ∪ seen_ips st0
  /\ odict_lookup (flags l2) "repeated_ip" = Some true.
Proof.
  intros Hq1 Hip1 Hfresh Hr1 Hsteps Hq2 Hip2 Hr2.
  apply (ingest_Ok_inv _ _ _ _ _ _ Hq1) in Hr1.
  apply (ingest_Ok_inv _ _ _ _ _ _ Hq2) in Hr2.
  pose proof (flagged_rules_of_score _ _ _ _ _ Hr1) as Hrules.
  apply score_Ok_inv in Hr1. apply score_Ok_inv in Hr2.
  destruct Hr1 as (? & ? & ? & ip1 & ? & _ & _ & _ & Hi1 & _ & Hfl1 & _ & _ & _ & _ & _ & _ & _ & Hst1).
  destruct Hr2 as (? & ? & ? & ip2 & ? & _ & _ & _ & Hi2 & _ & Hfl2 & _ & _ & _ & _ & _ & _ & _ & _).
  rewrite Hip1 in Hi1. injection Hi1 as <-. clear Hi2 ip2.
  assert (Hin : ip ∈ seen_ips st2).
  { apply (handler_steps_seen_ips _ _ _ Hsteps). rewrite Hst1. cbn. set_solver. }
  split; [exact Hrules|].
  rewrite Hfl1, Hfl2, Hst1. unfold rule_flags, order_ip, get_default.
  rewrite Hip1, Hip2. cbn.
  split; [f_equal; now apply bool_decide_eq_false|].
  split; [reflexivity|]. f_equal. now apply bool_decide_eq_true.
Qed.

(** C7, as the code has it. An order that lacks one of the keys amount,
    order_id, email, phone, billing_address and shipping_address (and
    whose email, phone and amount have the expected types when present,
    the amount being an integer that converts to a float) makes the
    handler raise a [KeyError] naming the first of these keys that is
    absent; nothing is recorded and the seen-IP set is untouched. The
    Rule Evaluator has run before, with the empty string in place of each
    absent field. *)
Theorem score_missing_key model order st key :
  rule_inputs_ok order -> amount_ok order -> amount_in_range order ->
  first_missing order = Some key ->
  key ∈ scoring_keys
  /\ order !! key = None
  /\ score model order st = (Raise (KeyError key), st)
  /\ exists flags,
       rules.apply_rules order (seen_ips st) = (Ok flags, seen_ips st)
       /\ rules.apply_rules (with_defaults order) (seen_ips st)
            = (Ok flags, seen_ips st).
Proof.
  intros Hok Ham _ Hfm.
  pose proof (find_some _ _ Hfm) as [Hin Habs].
  split; [now apply list_elem_of_In|].
  split; [unfold absent in Habs; now destruct (order !! key)|].
  split.
  - destruct (score_cases model order st)
      as [(e & Hn & _) | [(k & Hk & _ & Hr) | [(s & Ha & _)
         | [(Hnone & _) | (l0 & st0 & Hr & Hsc)]]]].
    + contradiction.
    + congruence.
    + destruct (Ham _ Ha) as [a Hv]. discriminate.
    + congruence.
    + destruct Hsc as (? & ? & ? & ? & ? & _ & _ & _ & _ & Hnone & _). congruence.
  - destruct (apply_rules_defaults order (seen_ips st) Hok)
      as (email & phone & _ & _ & Hr & Hr'). eauto.
Qed.
End handler.

(** ** Concrete runs of the handler *)

Lemma flagged_at_threshold :
  app.flagged quiet_locals = true
  /\ (app.risk_percent quiet_locals == 50)%Q
  /\ forall name, odict_lookup (app.flags quiet_locals) name <> Some true.
Proof.
  assert (Hrun : @app.score exact_arith (constant_classifier 0.5) tt quiet_order
                   (session_of [] ∅) = (Ok quiet_locals, quiet_after))
    by (vm_compute; reflexivity).
  assert (Hnone : forall name, odict_lookup (app.flags quiet_locals) name <> Some true).
  { intros name. cbn [quiet_locals app.flags odict_lookup].
    repeat match goal with
           | |- context [String.eqb ?k name] => destruct (String.eqb k name)
           end; discriminate. }
  assert (H50 : (app.risk_percent quiet_locals == 50)%Q) by reflexivity.
  split; [| split; assumption].
  exact (proj1 (proj2 (proj2 (proj2 (proj2 (proj2
           (flagged_iff_threshold_or_rule (H := exact_arith)
              (H0 := constant_classifier 0.5) tt quiet_order (session_of [] ∅)
              quiet_locals quiet_after Hrun)))))) Hnone H50).
Defined.

Lemma repeated_ip_scenario :
  odict_lookup (app.flags first_locals) "repeated_ip" = Some false
  /\ app.seen_ips after_first = {[ VStr "1.1.1.1" ]} ∪ ∅
  /\ odict_lookup (app.flags second_locals) "repeated_ip" = Some true.
Proof.
  refine (proj2 (repeated_ip_second_order_only (H := exact_arith)
            (H0 := constant_classifier 0) tt
            twice_queued after_first after_first after_second
            scenario_order scenario_order [scenario_order] [] first_locals second_locals
            (VStr "1.1.1.1") _ _ _ _ _ _ _ _)).
  - reflexivity.
  - vm_compute. reflexivity.
  - change (VStr "1.1.1.1" ∉ (∅ : gset value)). apply not_elem_of_empty.
  - vm_compute. reflexivity.
  - apply rtc_refl.
  - reflexivity.
  - vm_compute. reflexivity.
  - vm_compute. reflexivity.
Defined.

Lemma missing_email_raises :
  @app.score exact_arith (constant_classifier 0) tt order_without_email
     (session_of [] ∅)
  = (Raise (KeyError "email"), session_of [] ∅).
Proof.
  refine (proj1 (proj2 (proj2 (score_missing_key (H := exact_arith)
            (H0 := constant_classifier 0) tt order_without_email
            (session_of [] ∅) "email" _ _ _ _)))).
  - split; eexists; vm_compute; reflexivity.
  - intros v Hv. vm_compute in Hv. injection Hv as <-. eexists. reflexivity.
  - intros a Ha. vm_compute in Ha. injection Ha as <-.
    apply Z.leb_le. vm_compute. reflexivity.
  - vm_compute. reflexivity.
Defined.

(** C7, the claim as stated fails. An order without an IP address, on a
    session in which an empty IP address was seen, under a model that
    answers zero: the Rule Evaluator takes the absent IP for the empty
    string, the verdict built from it (flagged, with the alert "Repeated
    Ip") is recorded among the processed orders, and only then does the
    handler raise. *)
Lemma missing_ip_verdict_recorded :
  order_without_ip !! "ip_address" = None
  /\ exists entry,
       @app.score exact_arith (constant_classifier 0) tt order_without_ip seen_blank_ip
       = (Raise (KeyError "ip_address"),
          app.set_processed_orders [entry] seen_blank_ip)
       /\ odict_lookup entry "Flagged" = Some (CValue (VStr "Yes"))
       /\ odict_lookup entry "Alerts" = Some (CValue (VStr "Repeated Ip")).
Proof.
  split; [vm_compute; reflexivity|].
  eexists. split; [vm_compute; reflexivity|]. split; reflexivity.
Qed.

Lemma bare_order_flags :
  exists flags,
    rules.apply_rules bare_order ∅ = (Ok flags, ∅)
    /\ odict_lookup flags "mismatch" = Some false
    /\ odict_lookup flags "suspicious_email" = Some false
    /\ odict_lookup flags "suspicious_phone" = Some true.
Proof.
  destruct (apply_rules_missing_keys bare_order ∅) as (flags & Hr & _ & _ & _ & _ & _ & Hm & He & Hp).
  - intros v Hv. vm_compute in Hv. discriminate.
  - intros v Hv. vm_compute in Hv. discriminate.
  - exists flags. split; [exact Hr|].
    split; [apply Hm; vm_compute; reflexivity|].
    split; [apply He | apply Hp]; vm_compute; reflexivity.
Defined.

(** ** Training and inference features *)

Lemma returns_bind {S A B} (m : Exec S A) (k : A -> Exec S B) a b :
  returns m a -> returns (k a) b -> returns (bind m k) b.
Proof. intros Hm Hk s. unfold bind. rewrite Hm. apply Hk. Qed.

Lemma bind_Ok_inv {S A B} (m : Exec S A) (k : A -> Exec S B) s b s2 :
  bind m k s = (Ok b, s2) -> exists a s1, m s = (Ok a, s1) /\ k a s1 = (Ok b, s2).
Proof. unfold bind. destruct (m s) as [[a | e] s1]; [eauto | discriminate]. Qed.







Lemma odict_getitem_Some {S V} (d : odict V) key v (s : S) :
  odict_lookup d key = Some v -> odict_getitem d key s = (Ok v, s).
Proof. unfold odict_getitem. now intros ->. Qed.



Section features.
Context `{FloatOps} `{Classifier}.





End features.


(** ** The generator and its seed *)

(** C5, as the code has it. The generator takes no seed: it draws from
    the state of the [random] module, which the module seeds once, with
    42, when it is imported. A call made right after seeding with [a]
    returns what the generator returns from the state [rng_seed a],
    whatever the state was before; so the first call of every run returns
    the same dataset, and two calls that are each preceded by the same
    seeding return the same dataset, whatever was drawn in between. *)
Theorem generate_after_seed `{RandomGen} `{FloatOps}
    (n : nat) (a : Z) (between : Exec rng_state unit) (g g' : rng_state) :
  bind (random.seed a) (fun _ => model.generate_mock_data n) g
  = model.generate_mock_data n (rng_seed a)
  /\ bind (random.seed a) (fun _ => model.generate_mock_data n) g
     = bind (random.seed a) (fun _ => model.generate_mock_data n) g'
  /\ bind model.module_init (fun _ => model.generate_mock_data n) g
     = model.generate_mock_data n (rng_seed 42)
  /\ match bind (random.seed a) (fun _ =>
             bind (model.generate_mock_data n) (fun first =>
             bind between (fun _ =>
             bind (random.seed a) (fun _ =>
             bind (model.generate_mock_data n) (fun second =>
             ret (first, second)))))) g with
     | (Ok (first, second), _) => first = second
     | (Raise _, _) => True
     end.
Proof.
  split; [reflexivity|]. split; [reflexivity|]. split; [reflexivity|].
  unfold bind, random.seed, put, ret.
  destruct (model.generate_mock_data n (rng_seed a)) as [[first | e] g1]; [| exact I].
  destruct (between g1) as [[[] | e] g2]; [reflexivity | exact I].
Qed.

(** C5, the claim as stated fails. After the seeding at import, two
    calls of the generator in a row, with the same [n], draw from
    different states: here the second dataset differs from the first. *)
Lemma generate_twice_differs :
  ~ (forall (R : RandomGen) (F : FloatOps) (n : nat) (g : rng_state),
       match bind model.module_init
                  (fun _ => twice (model.generate_mock_data n)) g with
       | (Ok (first, second), _) => first = second
       | (Raise _, _) => True
       end).
Proof.
  intros Hsame. specialize (Hsame counter_rng exact_arith 1%nat 0).
  vm_compute in Hsame. discriminate Hsame.
Qed.

(** * More of the code *)

(** ** rules.py: letter case and errors *)

Lemma lower_char_idem c : PyStr.lower_char (PyStr.lower_char c) = PyStr.lower_char c.
Proof. destruct c as [[] [] [] [] [] [] [] []]; reflexivity. Qed.

Lemma lower_idem s : PyStr.lower (PyStr.lower s) = PyStr.lower s.
Proof. induction s as [| c s IH]; simpl; [reflexivity|]. now rewrite lower_char_idem, IH. Qed.

Lemma lower_char_at c : Ascii.eqb (PyStr.lower_char c) "@" = Ascii.eqb c "@".
Proof. destruct c as [[] [] [] [] [] [] [] []]; reflexivity. Qed.

Lemma split_lower s :
  PyStr.split "@" (PyStr.lower s) = map PyStr.lower (PyStr.split "@" s).
Proof.
  induction s as [| c s IH]; simpl; [reflexivity|].
  rewrite lower_char_at, IH. destruct (Ascii.eqb c "@"); [reflexivity|].
  destruct (PyStr.split "@" s); reflexivity.
Qed.

Lemma suspicious_email_lower email :
  rules.is_suspicious_email (PyStr.lower email) = rules.is_suspicious_email email.
Proof.
  unfold rules.is_suspicious_email. rewrite split_lower, list_lookup_fmap.
  destruct (PyStr.split "@" email !! 1%nat); simpl; [now rewrite lower_idem | reflexivity].
Qed.

(** X1. The email rule ignores letter case: two emails that are equal
    once lower-cased get the same verdict. *)
Theorem suspicious_email_ignores_case (email1 email2 : string) :
  PyStr.lower email1 = PyStr.lower email2 ->
  rules.is_suspicious_email email1 = rules.is_suspicious_email email2.
Proof.
  intros Hl. rewrite <- (suspicious_email_lower email1), <- (suspicious_email_lower email2).
  now rewrite Hl.
Qed.

Lemma suspicious_email_ignores_case_witness :
  rules.is_suspicious_email "Bob@TempMail.COM" = rules.is_suspicious_email "bob@tempmail.com".
Proof. apply suspicious_email_ignores_case. reflexivity. Defined.

(** X2. The errors of [apply_rules]. It raises [AttributeError] exactly
    when the order holds an integer under [email] (an integer has no
    [split]), and [TypeError] exactly when the email is no integer and
    the order holds an integer under [phone] (an integer has no [len]);
    it raises nothing else. When it returns, its flags are the four
    rules, in the order mismatch, suspicious_email, suspicious_phone,
    repeated_ip. *)
Theorem apply_rules_errors (order : gmap string value) (seen : gset value) :
  ((rules.apply_rules order seen).1 = Raise AttributeError
     <-> exists z, order !! "email" = Some (VInt z))
  /\ ((rules.apply_rules order seen).1 = Raise TypeError
     <-> (forall z, order !! "email" <> Some (VInt z))
         /\ exists z, order !! "phone" = Some (VInt z))
  /\ (forall e, (rules.apply_rules order seen).1 = Raise e ->
        e = AttributeError \/ e = TypeError)
  /\ (forall flags, (rules.apply_rules order seen).1 = Ok flags ->
        map fst flags = rule_names
        /\ (forall z, order !! "email" <> Some (VInt z))
        /\ (forall z, order !! "phone" <> Some (VInt z))).
Proof.
  unfold rules.apply_rules, bind, as_str, get_default, get, ret, raise.
  destruct (order !! "email") as [[email | z] |] eqn:He;
    destruct (order !! "phone") as [[phone | z'] |] eqn:Hp; cbn;
    repeat split;
    solve
      [ discriminate
      | match goal with Hok : Ok _ = Ok _ |- _ => injection Hok as <-; reflexivity end
      | eauto
      | intros [? [=]]
      | intros [Hn _]; exfalso; eapply Hn; reflexivity
      | intros [_ [? [=]]]
      | intros e [= <-]; auto
      | intros flags [= <-]; reflexivity
      | intros flags [=]
      | congruence ].
Qed.

Lemma first_missing_None order :
  first_missing order = None ->
  forall key, key ∈ scoring_keys -> is_Some (order !! key).
Proof.
  intros Hfm key Hin. apply list_elem_of_In in Hin.
  pose proof (find_none _ _ Hfm key Hin) as Hk. unfold absent in Hk.
  destruct (order !! key); [eauto | discriminate].
Qed.

Section handler_more.
Context `{FloatOps} `{Classifier}.
Import app.

Ltac run_step :=
  first
    [ erewrite bind_Ok by (apply getitem_Some; eassumption)
    | erewrite bind_Raise by (apply getitem_None; eassumption)
    | erewrite bind_Ok by reflexivity
    | erewrite bind_Raise by reflexivity ].

(** X3. One press of the button. On an empty queue it returns nothing
    and leaves the session as it is. On a non-empty queue it takes the
    first order off the queue, also when scoring the order raises; when
    it raises, the seen-IP set is unchanged, and the processed orders are
    unchanged too unless the error is the missing [ip_address]. *)
Theorem ingest_pops_one model st :
  (new_orders st = [] -> ingest_next_order model st = (Ok None, st))
  /\ (forall next_order rest, new_orders st = next_order :: rest ->
        new_orders (ingest_next_order model st).2 = rest
        /\ (ingest_next_order model st).1 <> Ok None
        /\ (forall e, (ingest_next_order model st).1 = Raise e ->
              seen_ips (ingest_next_order model st).2 = seen_ips st
              /\ (e <> KeyError "ip_address" ->
                  processed_orders (ingest_next_order model st).2
                  = processed_orders st))).
Proof.
  split; [apply ingest_empty|]. intros next_order rest Hq.
  rewrite (ingest_nonempty _ _ _ _ Hq). cbn [fst snd].
  pose proof (score_store model next_order (set_new_orders rest st)) as (Hn & _ & _).
  split; [exact Hn|]. split.
  { destruct (score model next_order (set_new_orders rest st)).1; discriminate. }
  intros e He.
  destruct (score_cases model next_order (set_new_orders rest st))
    as [(e' & _ & Hr & _) | [(k & _ & _ & Hr) | [(s & _ & Hr)
       | [(_ & _ & entry & Hr) | (l0 & st0 & Hr & _)]]]];
    rewrite Hr in He |- *; cbn in He |- *;
    try (split; [reflexivity | intros _; reflexivity]).
  - split; [reflexivity | congruence].
  - discriminate.
Qed.

Lemma score_explicit model order st l st' :
  score model order st = (Ok l, st') ->
  exists oid em ph bi sh a,
    order !! "order_id" = Some oid /\ order !! "email" = Some em
    /\ order !! "phone" = Some ph /\ order !! "billing_address" = Some bi
    /\ order !! "shipping_address" = Some sh /\ order !! "amount" = Some (VInt a)
    /\ result_entry l =
         (let base :=
            [ ("Order ID", CValue oid); ("Email", CValue em); ("Phone", CValue ph);
              ("Billing Address", CValue bi); ("Shipping Address", CValue sh);
              ("Amount", CValue (VInt a));
              ("Risk Score (%)", CFloat (risk_percent l));
              ("Flagged", CValue (VStr (if flagged l then "Yes" else "No")));
              ("Alerts", CValue (VStr "")) ] in
          match map display_name (triggered (flags l)) with
          | [] => base
          | names => odict_set base "Alerts" (CValue (VStr (PyStr.join ", " names)))
          end).
Proof.
  intros Hs. pose proof (score_Ok_inv _ _ _ _ _ Hs) as Hsc.
  destruct Hsc as (email & phone & a & ip & x & Hem & Hph & Ha & Hi & Hfm & _).
  pose proof (first_missing_None order Hfm) as Hk.
  destruct (Hk "order_id") as [oid Ho]; [unfold scoring_keys; set_solver|].
  destruct (Hk "email") as [em He]; [unfold scoring_keys; set_solver|].
  destruct (Hk "phone") as [ph Hp]; [unfold scoring_keys; set_solver|].
  destruct (Hk "billing_address") as [bi Hb]; [unfold scoring_keys; set_solver|].
  destruct (Hk "shipping_address") as [sh Hsh]; [unfold scoring_keys; set_solver|].
  exists oid, em, ph, bi, sh, a. repeat (split; [assumption|]).
  revert Hs. unfold score.
  assert (Hr : rules.apply_rules order (seen_ips st)
               = (Ok (rule_flags order (seen_ips st) email phone), seen_ips st)).
  { unfold rules.apply_rules, bind, as_str. rewrite Hem, Hph. reflexivity. }
  rewrite (bind_Ok _ _ _ _ _ (zoom_apply_rules _ _ _ Hr)).
  unfold rule_flags at 1 2 3 4. repeat run_step.
  intros [= <- _]. cbn [result_entry flags risk_percent flagged].
  unfold triggered, display_name, rule_flags.
  repeat match goal with
         | |- context [int_of_bool ?b] =>
             lazymatch b with
             | true => fail | false => fail
             | _ => tryif is_var b then fail else (generalize b; intro)
             end
         end.
  repeat match goal with b : bool |- _ => destruct b end; reflexivity.
Qed.

Lemma scored_flags model order st l st' :
  score model order st = (Ok l, st') ->
  exists b1 b2 b3 b4,
    flags l = [ ("mismatch", b1); ("suspicious_email", b2);
                ("suspicious_phone", b3); ("repeated_ip", b4) ]
    /\ b4 = bool_decide (order_ip order ∈ seen_ips st).
Proof.
  intros Hs. apply score_Ok_inv in Hs.
  destruct Hs as (email & phone & ? & ? & ? & _ & _ & _ & _ & _ & Hfl & _).
  rewrite Hfl. unfold rule_flags. eauto 10.
Qed.

(** X4. The entry that a run of the handler's body records when it
    returns. Exactly one entry is appended to the processed orders; its
    keys are Order ID, Email, Phone, Billing Address, Shipping Address,
    Amount, Risk Score (%), Flagged, Alerts, in this order; the first six
    echo the order's fields, the risk score is [risk_percent]; Alerts is
    the display names of the rules whose flag is true, in the order of
    the rules, joined by a comma and a space, the display names being
    Mismatch, Suspicious Email, Suspicious Phone, Repeated Ip; and Alerts
    is empty exactly when no flag is true. *)
Theorem recorded_entry model order st l st' :
  score model order st = (Ok l, st') ->
  processed_orders st' = processed_orders st ++ [result_entry l]
  /\ map fst (result_entry l) = entry_keys
  /\ odict_lookup (result_entry l) "Order ID" = CValue <$> order !! "order_id"
  /\ odict_lookup (result_entry l) "Email" = CValue <$> order !! "email"
  /\ odict_lookup (result_entry l) "Phone" = CValue <$> order !! "phone"
  /\ odict_lookup (result_entry l) "Billing Address"
       = CValue <$> order !! "billing_address"
  /\ odict_lookup (result_entry l) "Shipping Address"
       = CValue <$> order !! "shipping_address"
  /\ odict_lookup (result_entry l) "Amount" = CValue <$> order !! "amount"
  /\ odict_lookup (result_entry l) "Risk Score (%)" = Some (CFloat (risk_percent l))
  /\ odict_lookup (result_entry l) "Alerts"
       = Some (CValue (VStr (PyStr.join ", " (map display_name (triggered (flags l))))))
  /\ triggered (flags l)
       = List.filter
           (fun name => bool_decide (odict_lookup (flags l) name = Some true))
           rule_names
  /\ map display_name rule_names
       = ["Mismatch"; "Suspicious Email"; "Suspicious Phone"; "Repeated Ip"]
  /\ (odict_lookup (result_entry l) "Alerts" = Some (CValue (VStr ""))
       <-> forall name, odict_lookup (flags l) name <> Some true).
Proof.
  intros Hs.
  pose proof (score_Ok_inv _ _ _ _ _ Hs) as Hsc.
  destruct Hsc as (? & ? & ? & ip & ? & _ & _ & _ & _ & _ & _ & _ & _ & _ & _ & _ & _ & _ & Hst).
  destruct (score_explicit _ _ _ _ _ Hs)
    as (oid & em & ph & bi & sh & a & Ho & He & Hp & Hb & Hsh & Ha & Hen).
  destruct (scored_flags _ _ _ _ _ Hs) as (b1 & b2 & b3 & b4 & Hfl & _).
  rewrite Ho, He, Hp, Hb, Hsh, Ha, Hen, Hfl. cbn zeta.
  split; [rewrite Hst, Hen, Hfl; reflexivity|].
  destruct b1, b2, b3, b4; repeat (split; [reflexivity|]); split.
  all: try (intros [=]; fail).
  all: try (intros _; reflexivity).
  all: try (intros Hn; exfalso; cbn in Hn;
            first [ now apply (Hn "mismatch")
                  | now apply (Hn "suspicious_email")
                  | now apply (Hn "suspicious_phone")
                  | now apply (Hn "repeated_ip") ]).
  intros _ name. cbn [odict_lookup].
  repeat match goal with
         | |- context [String.eqb ?k name] => destruct (String.eqb k name)
         end; discriminate.
Qed.

Lemma ingest_complete model st next_order rest :
  order_complete next_order ->
  new_orders st = next_order :: rest ->
  exists l,
    ingest_next_order model st =
      (Ok (Some l),
       {| new_orders := rest;
          processed_orders := processed_orders st ++ [result_entry l];
          seen_ips := {[ order_ip next_order ]} ∪ seen_ips st |})
    /\ score model next_order (set_new_orders rest st)
       = (Ok l,
          {| new_orders := rest;
             processed_orders := processed_orders st ++ [result_entry l];
             seen_ips := {[ order_ip next_order ]} ∪ seen_ips st |}).
Proof.
  intros (Hok & Ham & Hfm & Hip) Hq.
  destruct (score_complete model next_order (set_new_orders rest st) Hok Ham Hfm Hip)
    as (l & st' & Hs).
  exists l. rewrite (ingest_nonempty _ _ _ _ Hq), Hs. cbn [fst snd].
  pose proof (score_Ok_inv _ _ _ _ _ Hs) as Hsc.
  assert (Hst : st' = {| new_orders := rest;
                         processed_orders := processed_orders st ++ [result_entry l];
                         seen_ips := {[ order_ip next_order ]} ∪ seen_ips st |}).
  { destruct Hsc as (? & ? & ? & ip & ? & _ & _ & _ & Hi & _ & _ & _ & _ & _ & _ & _ & _
                     & _ & ->).
    unfold order_ip, get_default. rewrite Hi. reflexivity. }
  rewrite <- Hst. split; reflexivity.
Qed.

Lemma press_each_scored models queue processed seen :
  length models = length queue ->
  Forall order_complete queue ->
  let start := {| new_orders := queue; processed_orders := processed;
                  seen_ips := seen |} in
  let run := press_each models start in
  new_orders run.2 = []
  /\ seen_ips run.2 = seen ∪ list_to_set (map order_ip queue)
  /\ length run.1 = length queue
  /\ exists entries,
       processed_orders run.2 = processed ++ entries
       /\ length entries = length queue
       /\ forall i order, queue !! i = Some order ->
            exists model l st_i st_i',
              models !! i = Some model
              /\ run.1 !! i = Some (Ok (Some l))
              /\ entries !! i = Some (result_entry l)
              /\ score model order st_i = (Ok l, st_i')
              /\ seen_ips st_i = seen ∪ list_to_set (map order_ip (take i queue)).
Proof.
  cbn zeta. intros Hlen Hall. revert models Hlen processed seen.
  induction Hall as [| o queue Ho Hall IH]; intros models Hlen processed seen.
  - destruct models; [| discriminate]. cbn.
    split; [reflexivity|]. split; [set_solver|]. split; [reflexivity|].
    exists []. split; [now rewrite app_nil_r|]. split; [reflexivity|].
    intros i order Hi. discriminate.
  - destruct models as [| model models]; [discriminate|]. injection Hlen as Hlen.
    cbn [length press_each].
    destruct (ingest_complete model
                {| new_orders := o :: queue; processed_orders := processed;
                   seen_ips := seen |} o queue Ho eq_refl) as (l & Hr & Hsc).
    rewrite Hr. cbn [processed_orders seen_ips] in *.
    specialize (IH models Hlen (processed ++ [result_entry l]) ({[ order_ip o ]} ∪ seen)).
    destruct (press_each models _) as [rs st2].
    cbn [fst snd] in *.
    destruct IH as (Hq & Hseen & Hl & entries & Hp & Hlen' & Hith).
    split; [exact Hq|].
    split; [rewrite Hseen; cbn; set_solver|]. split; [cbn; now rewrite Hl|].
    exists (result_entry l :: entries).
    split; [rewrite Hp, <- app_assoc; reflexivity|].
    split; [cbn; now rewrite Hlen'|].
    intros [| i] order Hi; cbn in Hi.
    + injection Hi as <-. eexists model, l, _, _. split; [reflexivity|].
      split; [reflexivity|]. split; [reflexivity|].
      split; [exact Hsc|]. cbn. set_solver.
    + destruct (Hith i order Hi) as (model' & l' & st_i & st_i' & Hm & Hl' & He & Hsc' & Hs').
      exists model', l', st_i, st_i'. split; [exact Hm|]. split; [exact Hl'|].
      split; [exact He|]. split; [exact Hsc'|]. rewrite Hs'. cbn. set_solver.
Qed.

Lemma press_all_each model k st :
  press_all model k st = press_each (replicate k model) st.
Proof.
  revert st. induction k as [| k IH]; intros st; [reflexivity|].
  cbn [press_all replicate press_each].
  destruct (ingest_next_order model st) as [r st1]. now rewrite IH.
Qed.

Lemma press_all_scored model queue processed seen :
  Forall order_complete queue ->
  let start := {| new_orders := queue; processed_orders := processed;
                  seen_ips := seen |} in
  let run := press_all model (length queue) start in
  new_orders run.2 = []
  /\ seen_ips run.2 = seen ∪ list_to_set (map order_ip queue)
  /\ length run.1 = length queue
  /\ exists entries,
       processed_orders run.2 = processed ++ entries
       /\ length entries = length queue
       /\ forall i order, queue !! i = Some order ->
            exists l st_i st_i',
              run.1 !! i = Some (Ok (Some l))
              /\ entries !! i = Some (result_entry l)
              /\ score model order st_i = (Ok l, st_i')
              /\ seen_ips st_i = seen ∪ list_to_set (map order_ip (take i queue)).
Proof.
  intros Hall. cbv zeta. rewrite press_all_each.
  destruct (press_each_scored (replicate (length queue) model) queue processed seen
              (length_replicate _ _) Hall)
    as (Hq & Hseen & Hl & entries & Hp & Hlen & Hith).
  split; [exact Hq|]. split; [exact Hseen|]. split; [exact Hl|].
  exists entries. split; [exact Hp|]. split; [exact Hlen|].
  intros i order Hi.
  destruct (Hith i order Hi) as (model' & l & st_i & st_i' & Hm & Hr & He & Hsc & Hs).
  apply lookup_replicate in Hm as [-> _]. eauto 10.
Qed.

(** X6. What presses of the button never undo. After any number of
    presses, whatever each of them did, the queue is the queue at the
    start without some of its first orders, the processed orders are
    those at the start followed by further entries, and the seen-IP set
    contains the set at the start. *)
Theorem session_history model st st' :
  rtc (handler_step model) st st' ->
  (exists k, new_orders st' = drop k (new_orders st))
  /\ (exists more, processed_orders st' = processed_orders st ++ more)
  /\ seen_ips st ⊆ seen_ips st'.
Proof.
  induction 1 as [st | st st1 st2 [r Hstep] _ IH].
  - split; [exists 0%nat; reflexivity|]. split; [exists []; now rewrite app_nil_r | reflexivity].
  - assert (Hone : (exists k, new_orders st1 = drop k (new_orders st))
                   /\ (exists more, processed_orders st1 = processed_orders st ++ more)
                   /\ seen_ips st ⊆ seen_ips st1).
    { destruct (new_orders st) as [| o rest] eqn:Hq.
      - rewrite ingest_empty in Hstep by assumption. injection Hstep as _ <-.
        rewrite Hq. split; [exists 0%nat; reflexivity|].
        split; [exists []; now rewrite app_nil_r | reflexivity].
      - rewrite (ingest_nonempty _ _ _ _ Hq) in Hstep. injection Hstep as _ <-.
        pose proof (score_store model o (set_new_orders rest st)) as (Hn & Hs & Hp).
        split; [exists 1%nat; exact Hn|]. split; [exact Hp | exact Hs]. }
    destruct Hone as ((k1 & Hk1) & (m1 & Hm1) & Hs1).
    destruct IH as ((k2 & Hk2) & (m2 & Hm2) & Hs2).
    split; [exists (k1 + k2)%nat; rewrite Hk2, Hk1; apply drop_drop|].
    split; [exists (m1 ++ m2); rewrite Hm2, Hm1; now rewrite app_assoc|].
    etrans; eassumption.
Qed.
End handler_more.

Lemma mapM_Ok_Forall2 {S A B} (f : A -> Exec S B) l s ys s' :
  mapM f l s = (Ok ys, s') ->
  Forall2 (fun x y => exists s1 s2, f x s1 = (Ok y, s2)) l ys.
Proof.
  revert s ys s'. induction l as [| x l IH]; intros s ys s'; simpl.
  - intros [= <- _]. constructor.
  - intros Hb. apply bind_Ok_inv in Hb. destruct Hb as (y & s1 & Hy & Hb).
    apply bind_Ok_inv in Hb. destruct Hb as (ys' & s2 & Hys & Hb).
    injection Hb as <- _. constructor; [eauto | eapply IH; eassumption].
Qed.

Lemma index_Ok_inv {S A} (l : list A) i (s : S) x s' :
  index l i s = (Ok x, s') -> l !! i = Some x.
Proof. unfold index. destruct (l !! i); [now intros [= <- _] | discriminate]. Qed.

Section generator.
Context `{RandomGen} `{FloatOps}.

Lemma choice_Ok_inv {A} (l : list A) g x g' :
  random.choice l g = (Ok x, g') -> x ∈ l.
Proof.
  unfold random.choice. intros Hb. apply bind_Ok_inv in Hb.
  destruct Hb as (i & g1 & _ & Hi). apply index_Ok_inv in Hi.
  eapply list_elem_of_lookup_2; eassumption.
Qed.

Lemma picks_Ok_inv {S A} (l : list A) (idxs : list nat) (g : S) xs g' :
  mapM (index l) idxs g = (Ok xs, g') ->
  length xs = length idxs /\ Forall (fun x => x ∈ l) xs.
Proof.
  intros Hm. apply mapM_Ok_Forall2 in Hm. split.
  - symmetry. eapply Forall2_length; eassumption.
  - induction Hm as [| i x idxs xs (s1 & s2 & Hi) _ IH]; constructor; [|exact IH].
    apply index_Ok_inv in Hi. eapply list_elem_of_lookup_2; eassumption.
Qed.

Lemma mock_order_inv ip_list i g row g' :
  model.mock_order ip_list i g = (Ok row, g') ->
  exists pin ship cs domain ds sp amount ip,
    row = mock_row i pin ship (PyStr.join "" cs) domain (PyStr.join "" ds) ip sp amount
    /\ Forall (fun c => c ∈ model.letters) cs
    /\ (domain ∈ model.disposable_domains \/ domain ∈ model.normal_domains)
    /\ length ds = 10%nat
    /\ Forall (fun d => exists z, d = str_of_int z) ds
    /\ (sp = 0 \/ sp = 1)
    /\ (PyStr.startswith (PyStr.join "" ds) "000"
        || PyStr.startswith (PyStr.join "" ds) "999"
        || PyStr.endswith (PyStr.join "" ds) "0000"
        || PyStr.endswith (PyStr.join "" ds) "1111" = true -> sp = 1)
    /\ ip_list !! i = Some ip.
Proof.
  unfold model.mock_order. intros Hb.
  apply bind_Ok_inv in Hb. destruct Hb as (pin & g1 & _ & Hb).
  apply bind_Ok_inv in Hb. destruct Hb as (r1 & g2 & _ & Hb).
  apply bind_Ok_inv in Hb. destruct Hb as (ship & g3 & _ & Hb).
  apply bind_Ok_inv in Hb. destruct Hb as (r2 & g4 & _ & Hb).
  apply bind_Ok_inv in Hb. destruct Hb as (domain & g5 & Hdom & Hb).
  apply bind_Ok_inv in Hb. destruct Hb as (cs & g6 & Hcs & Hb).
  apply bind_Ok_inv in Hb. destruct Hb as (ds & g7 & Hds & Hb).
  apply bind_Ok_inv in Hb. destruct Hb as (r3 & g8 & _ & Hb).
  apply bind_Ok_inv in Hb. destruct Hb as (amount & g9 & _ & Hb).
  apply bind_Ok_inv in Hb. destruct Hb as (ip & g10 & Hip & Hb).
  injection Hb as <- _.
  exists pin, ship, cs, domain, ds,
    (if Qltb r3 (fdec 0.1)
        || PyStr.startswith (PyStr.join "" ds) "000"
        || PyStr.startswith (PyStr.join "" ds) "999"
        || PyStr.endswith (PyStr.join "" ds) "0000"
        || PyStr.endswith (PyStr.join "" ds) "1111"
     then 1 else 0), amount, ip.
  split.
  { unfold mock_row, shipping_of, billing_of.
    destruct (ship =? pin); reflexivity. }
  split.
  { unfold random.choices in Hcs. apply bind_Ok_inv in Hcs.
    destruct Hcs as (idxs & ? & _ & Hcs). now apply picks_Ok_inv in Hcs. }
  split.
  { destruct (Qltb r2 (fdec 0.1)); apply choice_Ok_inv in Hdom; auto. }
  assert (Hds' : length ds = 10%nat /\ Forall (fun d => exists z, d = str_of_int z) ds).
  { apply mapM_Ok_Forall2 in Hds. split.
    - apply Forall2_length in Hds. now rewrite <- Hds.
    - clear -Hds. induction Hds as [| x d xs ds (s1 & s2 & Hd) _ IH]; constructor; [|exact IH].
      apply bind_Ok_inv in Hd. destruct Hd as (z & ? & _ & Hd). injection Hd as <- _. eauto. }
  destruct Hds' as [Hlen Hall]. split; [exact Hlen|]. split; [exact Hall|].
  split.
  { destruct (Qltb r3 (fdec 0.1) || _ || _ || _ || _); auto. }
  split.
  { destruct (Qltb r3 (fdec 0.1)), (PyStr.startswith _ "000"), (PyStr.startswith _ "999"),
      (PyStr.endswith _ "0000"), (PyStr.endswith _ "1111"); simpl; intros; congruence. }
  now apply index_Ok_inv in Hip.
Qed.

Lemma odict_getitem_Ok_inv {S V} (d : odict V) key (s : S) v s' :
  odict_getitem d key s = (Ok v, s') -> odict_lookup d key = Some v.
Proof. unfold odict_getitem. destruct (odict_lookup d key); [now intros [= <- _] | discriminate]. Qed.

Lemma frame_col_lookup {S} (df : DataFrame) c (s : S) col s' :
  frame_col df c s = (Ok col, s') ->
  Forall2 (fun row x => odict_lookup row c = Some x) df col.
Proof.
  unfold frame_col. intros Hm. apply mapM_Ok_Forall2 in Hm.
  eapply Forall2_impl; [exact Hm|]. intros row x (s1 & s2 & Hx).
  eapply odict_getitem_Ok_inv; eassumption.
Qed.

Lemma int_col_lookup (df : DataFrame) c g zs g' :
  model.int_col df c g = (Ok zs, g') ->
  Forall2 (fun row z => odict_lookup row c = Some (CValue (VInt z))) df zs.
Proof.
  unfold model.int_col. intros Hb. apply bind_Ok_inv in Hb.
  destruct Hb as (col & g1 & Hcol & Hz). apply frame_col_lookup in Hcol.
  apply mapM_Ok_Forall2 in Hz.
  revert zs Hz. induction Hcol as [| row x df col Hx _ IH]; intros zs Hz.
  - inversion Hz. constructor.
  - inversion Hz as [| ? z ? zs' (s1 & s2 & Hc) Hrest]; subst. constructor; [| now apply IH].
    rewrite Hx. destruct x as [[s | z'] | q]; try discriminate. now injection Hc as <- _.
Qed.

Lemma lookup_map {A B} (f : A -> B) (l : list A) i :
  map f l !! i = f <$> l !! i.
Proof.
  revert i. induction l as [| x l IH]; intros [| i]; simpl; try reflexivity. apply IH.
Qed.

Lemma generate_inv n g df g' :
  model.generate_mock_data n g = (Ok df, g') ->
  exists ips : list cell,
    length df = n /\ length ips = n
    /\ forall i, (i < n)%nat ->
         exists pin ship cs domain ds sp amount ip,
           ips !! i = Some (CValue (VStr ip))
           /\ df !! i = Some (generated_row i pin ship (PyStr.join "" cs) domain
                               (PyStr.join "" ds) ip sp amount (repeated_of ips ip))
           /\ Forall (fun c => c ∈ model.letters) cs
           /\ (domain ∈ model.disposable_domains \/ domain ∈ model.normal_domains)
           /\ length ds = 10%nat
           /\ Forall (fun d => exists z, d = str_of_int z) ds
           /\ (sp = 0 \/ sp = 1)
           /\ (PyStr.startswith (PyStr.join "" ds) "000"
               || PyStr.startswith (PyStr.join "" ds) "999"
               || PyStr.endswith (PyStr.join "" ds) "0000"
               || PyStr.endswith (PyStr.join "" ds) "1111" = true -> sp = 1).
Proof.
  unfold model.generate_mock_data. intros Hb.
  apply bind_Ok_inv in Hb. destruct Hb as (ip_list0 & g1 & _ & Hb).
  apply bind_Ok_inv in Hb. destruct Hb as (repeat_ips & g2 & _ & Hb).
  apply bind_Ok_inv in Hb. destruct Hb as (ip_list & g3 & _ & Hb).
  apply bind_Ok_inv in Hb. destruct Hb as (data & g4 & Hdata & Hb).
  cbv zeta in Hb.
  apply bind_Ok_inv in Hb. destruct Hb as (ips & g5 & Hips & Hb).
  set (df1 := frame_set_col data "repeated_ip" _) in Hb.
  apply bind_Ok_inv in Hb. destruct Hb as (c_m & g6 & Hm & Hb).
  apply bind_Ok_inv in Hb. destruct Hb as (c_se & g7 & Hse & Hb).
  apply bind_Ok_inv in Hb. destruct Hb as (c_sp & g8 & Hsp & Hb).
  apply bind_Ok_inv in Hb. destruct Hb as (c_rip & g9 & Hrip & Hb).
  apply bind_Ok_inv in Hb. destruct Hb as (c_am & g10 & Ham & Hb).
  injection Hb as <- _.
  apply mapM_Ok_Forall2 in Hdata. apply frame_col_lookup in Hips.
  apply int_col_lookup in Hm, Hse, Hsp, Hrip, Ham.
  assert (Ldata : length data = n).
  { apply Forall2_length in Hdata. unfold range in Hdata. now rewrite length_seq in Hdata. }
  assert (Lips : length ips = n) by (apply Forall2_length in Hips; lia).
  assert (Ldf1 : length df1 = n).
  { unfold df1, frame_set_col. rewrite length_zip_with, length_map. lia. }
  apply Forall2_length in Hm as Lm. apply Forall2_length in Hse as Lse.
  apply Forall2_length in Hsp as Lsp. apply Forall2_length in Hrip as Lrip.
  apply Forall2_length in Ham as Lam.
  exists ips. split.
  { unfold frame_set_col, model.series_add_scalar, model.series_add, model.series_mul.
    rewrite !length_zip_with, !length_map, !length_zip_with, !length_map. lia. }
  split; [exact Lips|]. intros i Hi.
  assert (Hri : range n !! i = Some i) by (unfold range; now rewrite lookup_seq_lt).
  destruct (Forall2_lookup_l _ _ _ _ _ Hdata Hri) as (row & Hrow & (s1 & s2 & Hmock)).
  apply mock_order_inv in Hmock.
  destruct Hmock as (pin & ship & cs & domain & ds & sp & amount & ip
                     & -> & Hcs & Hdom & Hlen & Hds & Hsp01 & Hpat & _).
  exists pin, ship, cs, domain, ds, sp, amount, ip.
  destruct (Forall2_lookup_l _ _ _ _ _ Hips Hrow) as (x & Hx & Hlx).
  cbn in Hlx. injection Hlx as <-.
  split; [exact Hx|]. split; [| auto 10].
  assert (Hdf1 : df1 !! i
            = Some (mock_row i pin ship (PyStr.join "" cs) domain (PyStr.join "" ds)
                      ip sp amount
                    ++ [("repeated_ip", CValue (VInt (repeated_of ips ip)))])).
  { unfold df1, frame_set_col. etrans; [apply lookup_zip_with|].
    rewrite Hrow, lookup_map, Hx. reflexivity. }
  destruct (Forall2_lookup_l _ _ _ _ _ Hm Hdf1) as (z1 & Hz1 & Hl1).
  destruct (Forall2_lookup_l _ _ _ _ _ Hse Hdf1) as (z2 & Hz2 & Hl2).
  destruct (Forall2_lookup_l _ _ _ _ _ Hsp Hdf1) as (z3 & Hz3 & Hl3).
  destruct (Forall2_lookup_l _ _ _ _ _ Hrip Hdf1) as (z4 & Hz4 & Hl4).
  destruct (Forall2_lookup_l _ _ _ _ _ Ham Hdf1) as (z5 & Hz5 & Hl5).
  cbn in Hl1, Hl2, Hl3, Hl4, Hl5.
  injection Hl1 as <-. injection Hl2 as <-. injection Hl3 as <-.
  injection Hl4 as <-. injection Hl5 as <-.
  unfold frame_set_col. etrans; [apply lookup_zip_with|].
  etrans; [apply (f_equal (fun o => o ≫= _) Hdf1)|]. cbn [mbind option_bind].
  unfold model.series_add_scalar, model.series_add, model.series_mul.
  rewrite !lookup_map.
  repeat (etrans; [| reflexivity];
          match goal with
          | |- context [zip_with ?f ?l ?k !! i] => rewrite (lookup_zip_with f l k i)
          end).
  rewrite !lookup_map, Hz1, Hz2, Hz3, Hz4, Hz5. reflexivity.
Qed.
End generator.

(** Counting *)
Lemma filter_length_pos {A} (P : A -> bool) (l : list A) :
  (0 < length (List.filter P l))%nat <-> exists y, y ∈ l /\ P y = true.
Proof.
  induction l as [| x l IH]; simpl.
  - split; [lia | intros (y & Hy & _); now apply elem_of_nil in Hy].
  - destruct (P x) eqn:Hx; simpl.
    + split; [intros _; exists x; split; [left | exact Hx] | lia].
    + rewrite IH. split.
      * intros (y & Hy & HP). exists y. split; [now right | exact HP].
      * intros (y & Hy & HP). apply elem_of_cons in Hy as [-> | Hy]; [congruence | eauto].
Qed.

Lemma filter_length_other {A} (P : A -> bool) (l : list A) i x :
  l !! i = Some x -> P x = true ->
  (1 < length (List.filter P l))%nat
  <-> exists j y, j <> i /\ l !! j = Some y /\ P y = true.
Proof.
  intros Hi Hx. rewrite <- (take_drop_middle l i x Hi) at 1.
  rewrite List.filter_app, length_app. simpl. rewrite Hx. simpl.
  pose proof (filter_length_pos P (take i l)) as Ht.
  pose proof (filter_length_pos P (drop (S i) l)) as Hd.
  split.
  - intros Hlt.
    assert (Hor : (0 < length (List.filter P (take i l)))%nat
                  \/ (0 < length (List.filter P (drop (S i) l)))%nat) by lia.
    destruct Hor as [Hpos | Hpos].
    + apply Ht in Hpos. destruct Hpos as (y & Hy & HP).
      apply elem_of_take in Hy. destruct Hy as (j & Hj & Hlt'). exists j, y.
      repeat split; [lia | assumption | assumption].
    + apply Hd in Hpos. destruct Hpos as (y & Hy & HP).
      apply list_elem_of_lookup in Hy. destruct Hy as (j & Hj).
      rewrite lookup_drop in Hj. exists (S i + j)%nat, y.
      repeat split; [lia | assumption | assumption].
  - intros (j & y & Hne & Hj & HP).
    destruct (decide (j < i)%nat) as [Hlt | Hge].
    + assert ((0 < length (List.filter P (take i l)))%nat); [| lia].
      apply Ht. exists y. split; [| exact HP]. apply elem_of_take. eauto.
    + assert ((0 < length (List.filter P (drop (S i) l)))%nat); [| lia].
      apply Hd. exists y. split; [| exact HP]. apply list_elem_of_lookup.
      exists (j - S i)%nat. rewrite lookup_drop. rewrite <- Hj. f_equal. lia.
Qed.

Lemma chars_append a b : chars (a +:+ b) = chars a ++ chars b.
Proof.
  induction a as [| c a IH]; [reflexivity|].
  change (chars (String c (a +:+ b)) = c :: (chars a ++ chars b)).
  unfold chars in *. simpl. now rewrite IH.
Qed.

Lemma pretty_N_go_length x s :
  (String.length s <= String.length (pretty_N_go x s))%nat.
Proof.
  revert s. induction (N.lt_wf_0 x) as [x _ IH]; intros s.
  destruct (decide (x = 0)%N) as [-> | Hne].
  - now rewrite pretty_N_go_0.
  - rewrite pretty_N_go_step by lia.
    etrans; [| apply IH; apply N.div_lt; lia]. simpl. lia.
Qed.

Lemma str_of_int_nonempty z : (1 <= String.length (str_of_int z))%nat.
Proof.
  unfold str_of_int, pretty, pretty_Z.
  assert (Hpos : forall p, (1 <= String.length (pretty (N.pos p)))%nat).
  { intros p. unfold pretty, pretty_N. destruct (decide (N.pos p = 0)%N); [discriminate|].
    rewrite pretty_N_go_step by lia. etrans; [| apply pretty_N_go_length]. simpl. lia. }
  destruct z as [| p | p]; [simpl; lia | apply Hpos |].
  change ("-" +:+ pretty p) with (String "-" (pretty p)). simpl. lia.
Qed.

Lemma join_empty_length (l : list string) :
  Forall (fun d => (1 <= String.length d)%nat) l ->
  (length l <= String.length (PyStr.join "" l))%nat.
Proof.
  induction 1 as [| d l Hd _ IH]; [simpl; lia|].
  destruct l as [| d' l]; [simpl in *; lia|].
  change (PyStr.join "" (d :: d' :: l)) with (d +:+ "" +:+ PyStr.join "" (d' :: l)).
  remember (PyStr.join "" (d' :: l)) as rest. remember (d' :: l) as tl.
  rewrite !length_append. simpl. lia.
Qed.

Lemma join_empty_chars (l : list string) (c : ascii) :
  Forall (fun d => ~ In c (chars d)) l -> ~ In c (chars (PyStr.join "" l)).
Proof.
  induction 1 as [| d l Hd _ IH]; [intros []|].
  destruct l as [| d' l]; [exact Hd|].
  change (PyStr.join "" (d :: d' :: l)) with (d +:+ "" +:+ PyStr.join "" (d' :: l)).
  rewrite !chars_append. intros Hin. apply in_app_or in Hin as [Hin | Hin]; [now apply Hd|].
  apply in_app_or in Hin as [[] | Hin]. now apply IH.
Qed.

Lemma letters_no_at c : c ∈ model.letters -> ~ In "@"%char (chars c).
Proof.
  intros Hc. unfold model.letters in Hc. cbn in Hc.
  repeat (apply elem_of_cons in Hc as [-> | Hc];
          [intros [Heq | []]; discriminate Heq|]).
  now apply elem_of_nil in Hc.
Qed.

Lemma domain_facts d :
  d ∈ model.disposable_domains \/ d ∈ model.normal_domains ->
  ~ In "@"%char (chars d) /\ PyStr.lower d = d
  /\ bool_decide (d ∈ rules.DISPOSABLE_DOMAINS)
     = bool_decide (d ∈ model.disposable_domains).
Proof.
  unfold model.disposable_domains, model.normal_domains.
  intros [Hd | Hd];
    repeat (apply elem_of_cons in Hd as [-> | Hd];
            [split; [intros Hin; cbn in Hin; intuition discriminate
                    | split; [reflexivity | vm_compute; reflexivity]]|]);
    now apply elem_of_nil in Hd.
Qed.

Lemma generated_email_rule user d :
  ~ In "@"%char (chars user) ->
  d ∈ model.disposable_domains \/ d ∈ model.normal_domains ->
  rules.is_suspicious_email (user +:+ "@" +:+ d)
  = bool_decide (d ∈ model.disposable_domains).
Proof.
  intros Hu Hd. destruct (domain_facts d Hd) as (Hat & Hlow & Hdec).
  unfold rules.is_suspicious_email.
  change (user +:+ "@" +:+ d) with (user +:+ String "@" d).
  rewrite split_at_sep by assumption. rewrite split_no_sep by assumption.
  cbn. rewrite Hlow. exact Hdec.
Qed.

Lemma billing_shipping_differ i pin ship :
  ship <> pin -> billing_of i pin <> shipping_of i pin ship.
Proof.
  intros Hne. unfold shipping_of, billing_of.
  destruct (ship =? pin) eqn:E; [apply Z.eqb_eq in E; contradiction|].
  intros Heq. apply String.app_inj in Heq. discriminate Heq.
Qed.

Lemma Qltb_lt (a b : Q) : Qltb a b = true <-> (a < b)%Q.
Proof.
  unfold Qltb. rewrite negb_true_iff. split.
  - intros Hle. apply Qnot_le_lt. intros Hba. apply Qle_bool_iff in Hba. congruence.
  - intros Hlt. destruct (Qle_bool b a) eqn:E; [| reflexivity].
    apply Qle_bool_iff in E. exfalso. exact (Qlt_not_le _ _ Hlt E).
Qed.

Section generated.
Context `{RandomGen} `{FloatOps}.

(** C4, as the code has it. The label of a generated row is 0 or 1, and
    it is 1 exactly when the logistic function of the linear score of the
    row's mismatch, suspicious_email, suspicious_phone, repeated_ip and
    amount cells strictly exceeds 0.5, the score and the logistic
    function being computed in float arithmetic: the coefficients 1.0,
    1.2, 0.8, 1.0, 0.0005 and 2.4 are the floats that these literals
    denote, every product and every sum is rounded, the sum is taken from
    left to right, and the exponential is numpy's. *)
Theorem label_rule n g df g' :
  (0 < n)%nat ->
  model.generate_mock_data n g = (Ok df, g') ->
  forall i row, df !! i = Some row ->
    exists mismatch suspicious_email suspicious_phone repeated_ip amount label,
      odict_lookup row "mismatch" = Some (CValue (VInt mismatch))
      /\ odict_lookup row "suspicious_email" = Some (CValue (VInt suspicious_email))
      /\ odict_lookup row "suspicious_phone" = Some (CValue (VInt suspicious_phone))
      /\ odict_lookup row "repeated_ip" = Some (CValue (VInt repeated_ip))
      /\ odict_lookup row "amount" = Some (CValue (VInt amount))
      /\ odict_lookup row "fraud_label" = Some (CValue (VInt label))
      /\ (label = 0 \/ label = 1)
      /\ (label = 1
          <-> (0.5 < float_logistic
                       (float_score mismatch suspicious_email suspicious_phone
                          repeated_ip amount))%Q).
Proof.
  intros _ Hg i row Hi.
  destruct (generate_inv _ _ _ _ Hg) as (ips & Ldf & Lips & Hrows).
  assert (Hlt : (i < n)%nat) by (rewrite <- Ldf; eapply lookup_lt_Some; eassumption).
  destruct (Hrows i Hlt) as (pin & ship & cs & domain & ds & sp & amount & ip
                             & _ & Hrow & _).
  pose proof (eq_trans (eq_sym Hi) Hrow) as Heq. injection Heq as ->.
  eexists _, _, _, _, _, _. do 6 (split; [reflexivity|]).
  unfold label_of_score.
  change (linear_score_of ?a ?b ?c ?d ?e) with (float_score a b c d e).
  change (fdiv 1 (fadd 1 (fexp (- ?s)))) with (float_logistic s).
  rewrite <- Qltb_lt.
  destruct (Qltb 0.5 _); cbn; split; auto; split; congruence.
Qed.

(** X7. The shape of the generated frame. When the generator returns for
    n > 0, the frame has n rows; every row has the fourteen columns
    order_id, billing_address, shipping_address, billing_pin,
    shipping_pin, email, phone, ip_address, mismatch, suspicious_email,
    suspicious_phone, amount, repeated_ip, fraud_label, in this order;
    the order id of the row at position i is i + 1; the addresses, email,
    phone and IP address are strings, the pins and the amount integers,
    and the four flags and the label are 0 or 1. *)
Theorem generated_frame_shape n g df g' :
  (0 < n)%nat ->
  model.generate_mock_data n g = (Ok df, g') ->
  length df = n
  /\ forall i row, df !! i = Some row ->
       map fst row = generated_columns
       /\ odict_lookup row "order_id" = Some (CValue (VInt (Z.of_nat i + 1)))
       /\ (forall c, c ∈ ["billing_address"; "shipping_address"; "email"; "phone";
                          "ip_address"] ->
             exists s, odict_lookup row c = Some (CValue (VStr s)))
       /\ (forall c, c ∈ ["billing_pin"; "shipping_pin"; "amount"] ->
             exists z, odict_lookup row c = Some (CValue (VInt z)))
       /\ (forall c, c ∈ ["mismatch"; "suspicious_email"; "suspicious_phone";
                          "repeated_ip"; "fraud_label"] ->
             odict_lookup row c = Some (CValue (VInt 0))
             \/ odict_lookup row c = Some (CValue (VInt 1))).
Proof.
  intros _ Hg. destruct (generate_inv _ _ _ _ Hg) as (ips & Ldf & Lips & Hrows).
  split; [exact Ldf|]. intros i row Hi.
  assert (Hlt : (i < n)%nat) by (rewrite <- Ldf; eapply lookup_lt_Some; eassumption).
  destruct (Hrows i Hlt) as (pin & ship & cs & domain & ds & sp & amount & ip
                             & _ & Hrow & _ & _ & _ & _ & Hsp & _).
  pose proof (eq_trans (eq_sym Hi) Hrow) as Heq. injection Heq as ->.
  split; [reflexivity|]. split; [reflexivity|]. split.
  { intros c Hc. repeat (apply elem_of_cons in Hc as [-> | Hc]; [eexists; reflexivity|]).
    now apply elem_of_nil in Hc. }
  split.
  { intros c Hc. repeat (apply elem_of_cons in Hc as [-> | Hc]; [eexists; reflexivity|]).
    now apply elem_of_nil in Hc. }
  intros c Hc.
  apply elem_of_cons in Hc as [-> | Hc].
  { cbn. destruct (ship =? pin); auto. }
  apply elem_of_cons in Hc as [-> | Hc].
  { cbn. destruct (bool_decide _); auto. }
  apply elem_of_cons in Hc as [-> | Hc].
  { cbn. destruct Hsp as [-> | ->]; auto. }
  apply elem_of_cons in Hc as [-> | Hc].
  { cbn. unfold repeated_of. destruct (1 <? _); auto. }
  apply elem_of_cons in Hc as [-> | Hc].
  { cbn. unfold label_of_score. destruct (Qltb _ _); auto. }
  now apply elem_of_nil in Hc.
Qed.

(** X8. The [repeated_ip] column of the generated frame. It is 0 or 1,
    and it is 1 on a row exactly when another row of the frame, before or
    after it, has the same IP address: the first order from an address
    that comes again is marked too. *)
Theorem generated_repeated_ip n g df g' :
  model.generate_mock_data n g = (Ok df, g') ->
  forall i row, df !! i = Some row ->
    (odict_lookup row "repeated_ip" = Some (CValue (VInt 1))
     \/ odict_lookup row "repeated_ip" = Some (CValue (VInt 0)))
    /\ (odict_lookup row "repeated_ip" = Some (CValue (VInt 1))
        <-> exists j other, j <> i /\ df !! j = Some other
              /\ odict_lookup other "ip_address" = odict_lookup row "ip_address").
Proof.
  intros Hg i row Hi.
  destruct (generate_inv _ _ _ _ Hg) as (ips & Ldf & Lips & Hrows).
  assert (Hlt : (i < n)%nat) by (rewrite <- Ldf; eapply lookup_lt_Some; eassumption).
  destruct (Hrows i Hlt) as (pin & ship & cs & domain & ds & sp & amount & ip
                             & Hip & Hrow & _).
  pose proof (eq_trans (eq_sym Hi) Hrow) as Heq. injection Heq as ->. cbn [generated_row mock_row app odict_lookup String.eqb Ascii.eqb Bool.eqb].
  unfold repeated_of, model.ip_count.
  assert (Hcount : ((1 <? Z.of_nat (length (List.filter (cell_eqb (CValue (VStr ip))) ips))) = true)
            <-> exists j other, j <> i /\ df !! j = Some other
                 /\ odict_lookup other "ip_address" = Some (CValue (VStr ip))).
  { rewrite Z.ltb_lt.
    change 1 with (Z.of_nat 1). rewrite <- Nat2Z.inj_lt.
    rewrite (filter_length_other _ ips i (CValue (VStr ip)) Hip)
      by (cbn; now apply bool_decide_eq_true).
    split.
    - intros (j & y & Hne & Hj & Hy).
      assert (Hjn : (j < n)%nat) by (rewrite <- Lips; eapply lookup_lt_Some; eassumption).
      destruct (Hrows j Hjn) as (pin' & ship' & cs' & domain' & ds' & sp' & amount' & ip'
                                 & Hip' & Hrow' & _).
      rewrite Hj in Hip'. injection Hip' as ->. cbn in Hy. apply bool_decide_eq_true in Hy.
      injection Hy as <-. eexists j, _. split; [exact Hne|]. split; [exact Hrow'|]. reflexivity.
    - intros (j & other & Hne & Hj & Hl).
      assert (Hjn : (j < n)%nat) by (rewrite <- Ldf; eapply lookup_lt_Some; eassumption).
      destruct (Hrows j Hjn) as (pin' & ship' & cs' & domain' & ds' & sp' & amount' & ip'
                                 & Hip' & Hrow' & _).
      pose proof (eq_trans (eq_sym Hj) Hrow') as Heq. injection Heq as ->.
      cbn in Hl. injection Hl as ->.
      exists j, (CValue (VStr ip)). split; [exact Hne|]. split; [exact Hip'|].
      cbn. now apply bool_decide_eq_true. }
  destruct (1 <? _) eqn:Hc.
  - split; [now left|]. split; [intros _; now apply Hcount | reflexivity].
  - split; [now right|]. split; [discriminate|].
    intros Hex. apply Hcount in Hex. discriminate.
Qed.

(** X9. The label of a generated row is computed from the five feature
    columns of that row alone: it is the label of the linear score of the
    row's mismatch, suspicious_email, suspicious_phone, repeated_ip and
    amount cells, under the float operations of the interface. *)
Theorem generated_label n g df g' :
  model.generate_mock_data n g = (Ok df, g') ->
  forall i row, df !! i = Some row ->
    exists mismatch suspicious_email suspicious_phone repeated_ip amount,
      odict_lookup row "mismatch" = Some (CValue (VInt mismatch))
      /\ odict_lookup row "suspicious_email" = Some (CValue (VInt suspicious_email))
      /\ odict_lookup row "suspicious_phone" = Some (CValue (VInt suspicious_phone))
      /\ odict_lookup row "repeated_ip" = Some (CValue (VInt repeated_ip))
      /\ odict_lookup row "amount" = Some (CValue (VInt amount))
      /\ odict_lookup row "fraud_label"
           = Some (CValue (VInt (label_of_score
                (linear_score_of mismatch suspicious_email suspicious_phone
                   repeated_ip amount)))).
Proof.
  intros Hg i row Hi.
  destruct (generate_inv _ _ _ _ Hg) as (ips & Ldf & Lips & Hrows).
  assert (Hlt : (i < n)%nat) by (rewrite <- Ldf; eapply lookup_lt_Some; eassumption).
  destruct (Hrows i Hlt) as (pin & ship & cs & domain & ds & sp & amount & ip
                             & _ & Hrow & _).
  pose proof (eq_trans (eq_sym Hi) Hrow) as Heq. injection Heq as ->.
  eexists _, _, _, _, _. repeat split; reflexivity.
Qed.

(** X10. The generator's flags against the rules of rules.py. On every
    generated row the [mismatch] and [suspicious_email] columns are the
    verdicts of [is_address_mismatch] and [is_suspicious_email] on the
    row's own addresses and email. The phone has at least ten characters;
    when [is_suspicious_phone] holds of it, the [suspicious_phone] column
    is 1 unless all its characters are the same, a pattern the generator
    does not test. *)
Theorem generated_flags_match_rules n g df g' :
  model.generate_mock_data n g = (Ok df, g') ->
  forall i row, df !! i = Some row ->
    exists billing shipping email phone,
      odict_lookup row "billing_address" = Some (CValue (VStr billing))
      /\ odict_lookup row "shipping_address" = Some (CValue (VStr shipping))
      /\ odict_lookup row "email" = Some (CValue (VStr email))
      /\ odict_lookup row "phone" = Some (CValue (VStr phone))
      /\ odict_lookup row "mismatch"
           = Some (CValue (VInt (Z.b2z
                (rules.is_address_mismatch (VStr billing) (VStr shipping)))))
      /\ odict_lookup row "suspicious_email"
           = Some (CValue (VInt (Z.b2z (rules.is_suspicious_email email))))
      /\ (10 <= String.length phone)%nat
      /\ (rules.is_suspicious_phone phone = true ->
          odict_lookup row "suspicious_phone" = Some (CValue (VInt 1))
          \/ all_equal_first phone).
Proof.
  intros Hg i row Hi.
  destruct (generate_inv _ _ _ _ Hg) as (ips & Ldf & Lips & Hrows).
  assert (Hlt : (i < n)%nat) by (rewrite <- Ldf; eapply lookup_lt_Some; eassumption).
  destruct (Hrows i Hlt) as (pin & ship & cs & domain & ds & sp & amount & ip
                             & _ & Hrow & Hcs & Hdom & Hlen & Hds & Hsp & Hpat).
  pose proof (eq_trans (eq_sym Hi) Hrow) as Heq. injection Heq as ->.
  eexists _, _, _, _. do 4 (split; [reflexivity|]).
  assert (Hphone : (10 <= String.length (PyStr.join "" ds))%nat).
  { rewrite <- Hlen. apply join_empty_length.
    eapply Forall_impl; [exact Hds|]. intros d [z ->]. apply str_of_int_nonempty. }
  split.
  { cbn. do 3 f_equal. unfold rules.is_address_mismatch.
    destruct (ship =? pin) eqn:E.
    - apply Z.eqb_eq in E. subst ship. unfold shipping_of. rewrite Z.eqb_refl.
      cbn. now rewrite bool_decide_eq_true_2.
    - apply Z.eqb_neq in E. cbn. rewrite bool_decide_eq_false_2; [reflexivity|].
      intros [= Heq]. now apply (billing_shipping_differ i pin ship). }
  split.
  { cbn. do 4 f_equal. symmetry. apply generated_email_rule; [| exact Hdom].
    apply join_empty_chars. eapply Forall_impl; [exact Hcs|]. apply letters_no_at. }
  split; [exact Hphone|].
  intros Hrule. cbn. unfold rules.is_suspicious_phone in Hrule.
  destruct (PyStr.len (PyStr.join "" ds) <? 4) eqn:Hl4.
  { apply Z.ltb_lt in Hl4. unfold PyStr.len in Hl4. lia. }
  destruct (PyStr.join "" ds) as [| c0 rest] eqn:Hp; [simpl in Hphone; lia|].
  rewrite <- Hp in *.
  destruct (PyStr.count c0 (PyStr.join "" ds) =? PyStr.len (PyStr.join "" ds)) eqn:Hcount.
  { right. apply Z.eqb_eq in Hcount.
    pose proof (proj1 (count_full _ _) Hcount) as Hall.
    unfold all_equal_first. intros c Hc. rewrite Hp at 1. cbn. f_equal. symmetry.
    now apply Hall. }
  left. do 3 f_equal. apply Hpat.
  destruct (PyStr.startswith _ "000"), (PyStr.startswith _ "999"),
    (PyStr.endswith _ "0000"), (PyStr.endswith _ "1111"); cbn in *; congruence.
Qed.
End generated.

(** The row generated from the scripted draws, in the float arithmetic of
    the machine: its label is 1, the logistic function of its float score
    exceeding 0.5. *)
Lemma label_rule_boundary :
  odict_lookup boundary_row "fraud_label" = Some (CValue (VInt 1))
  /\ (0.5 < float_logistic (H := binary64_arith)
              (float_score (H := binary64_arith) 1 1 0 0 400))%Q.
Proof.
  destruct (label_rule (H := scripted_rng) (H0 := binary64_arith) 1 boundary_script
              [boundary_row] [] ltac:(lia) ltac:(vm_compute; reflexivity)
              0%nat boundary_row eq_refl)
    as (m & e & p & r & a & label & Hm & He & Hp & Hr & Ha & Hl & _ & Hiff).
  vm_compute in Hm, He, Hp, Hr, Ha, Hl.
  injection Hm as <-. injection He as <-. injection Hp as <-. injection Hr as <-.
  injection Ha as <-. injection Hl as <-.
  split; [reflexivity|]. apply Hiff. reflexivity.
Defined.

(** C4, the claim as stated fails. The claim has the label be 1 if and
    only if the linear score is strictly positive. In the float
    arithmetic of the machine, the row with mismatch 1, suspicious_email
    1, suspicious_phone 0, repeated_ip 0 and amount 400, which the
    generator returns from the scripted draws, has the label 1, while its
    linear score 1.0 + 1.2 + 0.0005 * 400 - 2.4 is 0: the float sum is
    [2^-51]. (In exact arithmetic the logistic function exceeds 0.5
    exactly when the score is positive, so the two readings of the claim
    are one.) *)
Lemma label_one_at_exact_score_zero :
  ~ (forall (R : RandomGen) (n : nat) (g : rng_state) df g' i row
            mismatch suspicious_email suspicious_phone repeated_ip amount,
       @model.generate_mock_data R binary64_arith n g = (Ok df, g') ->
       df !! i = Some row ->
       odict_lookup row "mismatch" = Some (CValue (VInt mismatch)) ->
       odict_lookup row "suspicious_email" = Some (CValue (VInt suspicious_email)) ->
       odict_lookup row "suspicious_phone" = Some (CValue (VInt suspicious_phone)) ->
       odict_lookup row "repeated_ip" = Some (CValue (VInt repeated_ip)) ->
       odict_lookup row "amount" = Some (CValue (VInt amount)) ->
       (odict_lookup row "fraud_label" = Some (CValue (VInt 1))
        <-> (0 < exact_score mismatch suspicious_email suspicious_phone
                   repeated_ip amount)%Q)).
Proof.
  intros Hclaim.
  specialize (Hclaim scripted_rng 1%nat boundary_script [boundary_row] [] 0%nat
                boundary_row 1 1 0 0 400).
  assert (Hpos : (0 < exact_score 1 1 0 0 400)%Q).
  { apply Hclaim; vm_compute; reflexivity. }
  vm_compute in Hpos. discriminate Hpos.
Qed.

(** The label of that row does not hang on the last bit of the
    exponential: it is 1 for each of the three floats nearest to the
    exponential of [-2^-51]. *)
Lemma boundary_label_any_exp :
  Forall (fun v =>
            label_of_score (H := binary64_with (fun _ => v))
              (linear_score_of (H := binary64_with (fun _ => v)) 1 1 0 0 400) = 1)
    [ (1 - 2 ^ (-51) - 2 ^ (-53))%Q; (1 - 2 ^ (-51))%Q;
      (1 - 2 ^ (-51) + 2 ^ (-53))%Q ].
Proof. repeat constructor. Qed.

Lemma mapM_total {S A B} (f : A -> Exec S B) (P : A -> Prop) (l : list A) :
  (forall x, P x -> forall s, exists y s', f x s = (Ok y, s')) ->
  Forall P l ->
  forall s, exists ys s', mapM f l s = (Ok ys, s').
Proof.
  intros Hf Hl. induction Hl as [| x l Hx _ IH]; intros s; simpl.
  - eexists _, _. reflexivity.
  - destruct (Hf x Hx s) as (y & s1 & Hy). destruct (IH s1) as (ys & s2 & Hys).
    exists (y :: ys), s2. unfold bind. rewrite Hy, Hys. reflexivity.
Qed.

Lemma foldM_total {S A B} (f : B -> A -> Exec S B) (P : A -> Prop) (I : B -> Prop)
    (l : list A) :
  (forall b x, I b -> P x -> forall s, exists b' s', f b x s = (Ok b', s') /\ I b') ->
  Forall P l ->
  forall b s, I b -> exists b' s', foldM f l b s = (Ok b', s') /\ I b'.
Proof.
  intros Hf Hl. induction Hl as [| x l Hx _ IH]; intros b s Hb; simpl.
  - eexists _, _. split; [reflexivity | exact Hb].
  - destruct (Hf b x Hb Hx s) as (b1 & s1 & Hb1 & HI1).
    destruct (IH b1 s1 HI1) as (b2 & s2 & Hb2 & HI2).
    exists b2, s2. unfold bind. rewrite Hb1. auto.
Qed.

Lemma picks_total {S A} (l : list A) (idxs : list nat) (s : S) :
  Forall (fun j => (j < length l)%nat) idxs ->
  exists xs, mapM (index l) idxs s = (Ok xs, s) /\ Forall (fun x => x ∈ l) xs.
Proof.
  induction 1 as [| j idxs Hj _ (xs & Hxs & Hin)]; simpl.
  - exists []. split; [reflexivity | constructor].
  - destruct (lookup_lt_is_Some_2 l j Hj) as [x Hx].
    exists (x :: xs). unfold bind, index at 1. rewrite Hx. cbn. rewrite Hxs. cbn.
    split; [reflexivity|]. constructor; [eapply list_elem_of_lookup_2; eassumption | exact Hin].
Qed.

Lemma Forall_zip_with_both {A B C} (f : A -> B -> C) (P : A -> Prop) (R : B -> Prop)
    (Q : C -> Prop) l k :
  (forall x y, P x -> R y -> Q (f x y)) ->
  Forall P l -> Forall R k -> Forall Q (zip_with f l k).
Proof.
  intros Hf Hl. revert k. induction Hl as [| x l Hx _ IH]; intros k Hk; [constructor|].
  destruct Hk as [| y k Hy Hk]; [constructor|]. cbn. constructor; [now apply Hf | now apply IH].
Qed.

Lemma frame_col_total {S} (df : DataFrame) c (s : S) :
  Forall (fun row => is_Some (odict_lookup row c)) df ->
  exists col s', frame_col df c s = (Ok col, s').
Proof.
  intros Hdf. unfold frame_col.
  apply (mapM_total _ (fun row => is_Some (odict_lookup row c))); [| exact Hdf].
  intros row [x Hx] t. unfold odict_getitem. rewrite Hx. eexists _, _. reflexivity.
Qed.

Lemma int_col_total `{RandomGen} (df : DataFrame) c g :
  Forall (fun row => exists z, odict_lookup row c = Some (CValue (VInt z))) df ->
  exists zs g', model.int_col df c g = (Ok zs, g').
Proof.
  intros Hdf. unfold model.int_col.
  destruct (frame_col_total df c g) as (col & g1 & Hcol).
  { eapply Forall_impl; [exact Hdf|]. intros row [z Hz]. eauto. }
  rewrite (bind_Ok _ _ _ _ _ Hcol). apply frame_col_lookup in Hcol.
  apply (mapM_total _ (fun x => exists z, x = CValue (VInt z))).
  - intros x [z ->] t. eexists _, _. reflexivity.
  - clear -Hdf Hcol. induction Hcol as [| row x df col Hx _ IH]; [constructor|].
    inversion Hdf as [| ? ? [z Hz] Hrest]; subst. constructor; [| now apply IH].
    exists z. congruence.
Qed.

Section totality.
Context `{RandomGen} `{FloatOps}.
Hypothesis Hrange : random_in_range _.

Lemma draw_total {A} (f : rng_state -> A * rng_state) g :
  exists a g', random.draw f g = (Ok a, g').
Proof. unfold random.draw. destruct (f g) as [a g']. eauto. Qed.

Lemma random_ip_total g : exists ip g', model.random_ip g = (Ok ip, g').
Proof.
  unfold model.random_ip, bind, random.randint, random.draw.
  repeat match goal with |- context [rng_randint ?a ?b ?g] => destruct (rng_randint a b g) end.
  eauto.
Qed.

Lemma sample_total {A} (population : list A) k g :
  (k <= length population)%nat ->
  exists xs g', random.sample population k g = (Ok xs, g')
                /\ Forall (fun x => x ∈ population) xs.
Proof.
  intros Hk. unfold random.sample, bind, random.draw.
  destruct Hrange as (_ & Hs & _). specialize (Hs (length population) k g Hk).
  destruct (rng_sample (length population) k g) as [idxs g1]. cbn in Hs.
  destruct (picks_total population idxs g1 Hs) as (xs & Hxs & Hin).
  rewrite Hxs. eauto.
Qed.

Lemma choice_total {A} (l : list A) g :
  (0 < length l)%nat -> exists x g', random.choice l g = (Ok x, g').
Proof.
  intros Hl. unfold random.choice, bind, random.draw.
  destruct Hrange as (Hc & _ & _). specialize (Hc (length l) g Hl).
  destruct (rng_choice (length l) g) as [j g1]. cbn in Hc.
  destruct (lookup_lt_is_Some_2 l j Hc) as [x Hx].
  unfold index. rewrite Hx. eauto.
Qed.

Lemma choices_total {A} (l : list A) k g :
  (0 < length l)%nat -> exists xs g', random.choices l k g = (Ok xs, g').
Proof.
  intros Hl. unfold random.choices, bind, random.draw.
  destruct Hrange as (_ & _ & Hc). specialize (Hc (length l) k g Hl).
  destruct (rng_choices (length l) k g) as [idxs g1]. cbn in Hc.
  destruct (picks_total l idxs g1 Hc) as (xs & Hxs & _). rewrite Hxs. eauto.
Qed.

Lemma repeat_ip_total n ip_list ip g :
  length ip_list = n ->
  exists l' g', model.repeat_ip n ip_list ip g = (Ok l', g') /\ length l' = n.
Proof.
  intros Hlen. unfold model.repeat_ip.
  destruct (sample_total (range n) (Nat.min 3 n) g) as (idxs & g1 & Hs & Hin).
  { unfold range. rewrite length_seq. lia. }
  rewrite (bind_Ok _ _ _ _ _ Hs).
  apply (foldM_total (fun l idx => list_setitem l idx ip)
           (fun idx => (idx < n)%nat) (fun l => length l = n)).
  - intros l idx Hl Hidx s. unfold list_setitem.
    destruct (decide (idx < length l)%nat) as [Hlt | Hge]; [| lia].
    eexists _, _. split; [reflexivity|]. now rewrite length_insert.
  - eapply Forall_impl; [exact Hin|]. intros idx Hidx. unfold range in Hidx.
    apply elem_of_seq in Hidx. lia.
  - exact Hlen.
Qed.

Lemma mock_order_total ip_list i g :
  (i < length ip_list)%nat ->
  exists row g', model.mock_order ip_list i g = (Ok row, g').
Proof.
  intros Hi. unfold model.mock_order.
  destruct (draw_total (rng_randint 100000 999999) g) as (pin & g1 & Hpin).
  rewrite (bind_Ok _ _ _ _ _ Hpin).
  destruct (draw_total rng_random g1) as (r1 & g2 & Hr1).
  rewrite (bind_Ok _ _ _ _ _ Hr1).
  assert (Hship : exists ship g3,
            (if Qltb r1 (fdec 0.8) then ret pin else random.randint 100000 999999) g2
            = (Ok ship, g3)).
  { destruct (Qltb r1 (fdec 0.8)); [eexists _, _; reflexivity | apply draw_total]. }
  destruct Hship as (ship & g3 & Hship). rewrite (bind_Ok _ _ _ _ _ Hship).
  cbv zeta.
  destruct (draw_total rng_random g3) as (r2 & g4 & Hr2).
  rewrite (bind_Ok _ _ _ _ _ Hr2).
  assert (Hdom : exists domain g5,
            (if Qltb r2 (fdec 0.1) then random.choice model.disposable_domains
             else random.choice model.normal_domains) g4 = (Ok domain, g5)).
  { destruct (Qltb r2 (fdec 0.1)); apply choice_total; cbn; lia. }
  destruct Hdom as (domain & g5 & Hdom). rewrite (bind_Ok _ _ _ _ _ Hdom).
  destruct (choices_total model.letters 5 g5) as (cs & g6 & Hcs); [cbn; lia|].
  rewrite (bind_Ok _ _ _ _ _ Hcs).
  destruct (mapM_total
              (fun _ : nat => bind (random.randint 0 9) (fun d => ret (str_of_int d)))
              (fun _ => True) (range 10)) with (s := g6) as (ds & g7 & Hds).
  { intros x _ s. unfold bind. destruct (draw_total (rng_randint 0 9) s) as (d & s' & Hd).
    unfold random.randint. rewrite Hd. eexists _, _. reflexivity. }
  { apply Forall_forall. auto. }
  rewrite (bind_Ok _ _ _ _ _ Hds).
  destruct (draw_total rng_random g7) as (r3 & g8 & Hr3).
  rewrite (bind_Ok _ _ _ _ _ Hr3).
  destruct (draw_total (rng_randint 100 5000) g8) as (amount & g9 & Ham).
  rewrite (bind_Ok _ _ _ _ _ Ham).
  destruct (lookup_lt_is_Some_2 ip_list i Hi) as [ip Hip].
  unfold index at 1. rewrite Hip. eexists _, _. reflexivity.
Qed.

Lemma generate_total n g :
  (0 < n)%nat ->
  exists df g', model.generate_mock_data n g = (Ok df, g') /\ length df = n.
Proof.
  intros Hn.
  assert (Hgen : exists df g', model.generate_mock_data n g = (Ok df, g')).
  { unfold model.generate_mock_data.
    destruct (mapM_total (fun _ : nat => model.random_ip) (fun _ => True) (range n))
      with (s := g) as (ip_list0 & g1 & Hip0).
    { intros x _ s. apply random_ip_total. }
    { apply Forall_forall. auto. }
    rewrite (bind_Ok _ _ _ _ _ Hip0).
    assert (Len0 : length ip_list0 = n).
    { apply mapM_Ok_Forall2, Forall2_length in Hip0. unfold range in Hip0.
      now rewrite length_seq in Hip0. }
    destruct (sample_total ip_list0 (Nat.min 3 n) g1) as (repeat_ips & g2 & Hrep & _); [lia|].
    rewrite (bind_Ok _ _ _ _ _ Hrep).
    destruct (foldM_total (model.repeat_ip n) (fun _ => True) (fun l => length l = n)
                repeat_ips) with (b := ip_list0) (s := g2) as (ip_list & g3 & Hfold & Len).
    { intros l ip Hl _ s. now apply repeat_ip_total. }
    { apply Forall_forall. auto. }
    { exact Len0. }
    rewrite (bind_Ok _ _ _ _ _ Hfold).
    destruct (mapM_total (model.mock_order ip_list) (fun i => (i < n)%nat) (range n))
      with (s := g3) as (data & g4 & Hdata).
    { intros i Hi s. apply mock_order_total. lia. }
    { apply Forall_forall. intros i Hi. unfold range in Hi. apply elem_of_seq in Hi. lia. }
    rewrite (bind_Ok _ _ _ _ _ Hdata). cbv zeta.
    assert (Hshape : Forall (fun row => exists i pin ship user domain phone ip sp amount,
                       row = mock_row i pin ship user domain phone ip sp amount) data).
    { apply mapM_Ok_Forall2 in Hdata. clear -Hdata.
      induction Hdata as [| i row l data (s1 & s2 & Hm) _ IH]; constructor; [| exact IH].
      apply mock_order_inv in Hm.
      destruct Hm as (pin & ship & cs & domain & ds & sp & amount & ip & -> & _).
      eauto 12. }
    destruct (frame_col_total data "ip_address" g4) as (ips & g5 & Hips).
    { eapply Forall_impl; [exact Hshape|].
      intros row (i & pin & ship & user & domain & phone & ip & sp & amount & ->).
      cbn. eauto. }
    rewrite (bind_Ok _ _ _ _ _ Hips).
    set (df1 := frame_set_col data "repeated_ip" _).
    assert (Hdf1 : Forall (fun row => forall c,
                     c ∈ ["mismatch"; "suspicious_email"; "suspicious_phone";
                          "repeated_ip"; "amount"] ->
                     exists z, odict_lookup row c = Some (CValue (VInt z))) df1).
    { unfold df1, frame_set_col.
      eapply (Forall_zip_with_both _ _ (fun y => exists z, y = CValue (VInt z)));
        [| exact Hshape |].
      - intros row y (i & pin & ship & user & domain & phone & ip & sp & amount & ->) [z ->] c Hc.
        repeat (apply elem_of_cons in Hc as [-> | Hc]; [cbn; eauto|]).
        now apply elem_of_nil in Hc.
      - apply Forall_forall. intros y Hy. apply list_elem_of_In, in_map_iff in Hy.
        destruct Hy as (x & <- & _). eauto. }
    destruct (int_col_total df1 "mismatch" g5) as (c1 & g6 & Hc1).
    { eapply Forall_impl; [exact Hdf1|]. intros row Hrow. apply Hrow. repeat constructor. }
    rewrite (bind_Ok _ _ _ _ _ Hc1).
    destruct (int_col_total df1 "suspicious_email" g6) as (c2 & g7 & Hc2).
    { eapply Forall_impl; [exact Hdf1|]. intros row Hrow. apply Hrow. repeat constructor. }
    rewrite (bind_Ok _ _ _ _ _ Hc2).
    destruct (int_col_total df1 "suspicious_phone" g7) as (c3 & g8 & Hc3).
    { eapply Forall_impl; [exact Hdf1|]. intros row Hrow. apply Hrow. repeat constructor. }
    rewrite (bind_Ok _ _ _ _ _ Hc3).
    destruct (int_col_total df1 "repeated_ip" g8) as (c4 & g9 & Hc4).
    { eapply Forall_impl; [exact Hdf1|]. intros row Hrow. apply Hrow. repeat constructor. }
    rewrite (bind_Ok _ _ _ _ _ Hc4).
    destruct (int_col_total df1 "amount" g9) as (c5 & g10 & Hc5).
    { eapply Forall_impl; [exact Hdf1|]. intros row Hrow. apply Hrow. repeat constructor. }
    rewrite (bind_Ok _ _ _ _ _ Hc5).
    eexists _, _. reflexivity. }
  destruct Hgen as (df & g' & Hgen). exists df, g'. split; [exact Hgen|].
  now destruct (generate_inv _ _ _ _ Hgen) as (_ & Ldf & _).
Qed.
End totality.

Section generator_returns.
Context `{RandomGen} `{FloatOps}.

(** X11. When [random.choice], [random.sample] and [random.choices] pick
    positions of the sequence they are given, the generator raises
    nothing for any number n > 0 of orders and from any state of the
    random generator: it returns a frame of n rows. *)
Theorem generate_returns n g :
  random_in_range _ ->
  (0 < n)%nat ->
  exists df g', model.generate_mock_data n g = (Ok df, g') /\ length df = n.
Proof. intros Hrange Hn. now apply generate_total. Qed.

End generator_returns.

Lemma has_int_at row c : has_int row c -> odict_lookup row c = Some (CValue (VInt (int_at row c))).
Proof. intros [z Hz]. unfold int_at. now rewrite Hz. Qed.

Lemma returns_mapM {S A B} (f : A -> Exec S B) l ys :
  Forall2 (fun x y => returns (f x) y) l ys -> returns (mapM f l) ys.
Proof.
  induction 1 as [| x y l ys Hy _ IH]; intros s; simpl; [reflexivity|].
  unfold bind, ret. rewrite Hy, IH. reflexivity.
Qed.

Lemma returns_mapM_map {S A B C} (f : B -> Exec S C) (g : A -> B) (h : A -> C)
    (P : A -> Prop) l :
  (forall x, P x -> returns (f (g x)) (h x)) -> Forall P l ->
  returns (mapM f (map g l)) (map h l).
Proof.
  intros Hf Hl. apply returns_mapM. induction Hl as [| x l Hx _ IH]; cbn; constructor; auto.
Qed.

Lemma zip_with_map_same {A B C D} (f : B -> C -> D) (g : A -> B) (h : A -> C) l :
  zip_with f (map g l) (map h l) = map (fun x => f (g x) (h x)) l.
Proof. induction l as [| x l IH]; cbn; [reflexivity | now rewrite IH]. Qed.

Section training.
Context `{FloatOps} `{Classifier}.

Lemma training_matrix_returns {S} (df : DataFrame) :
  Forall (fun row => forall c, c ∈ model.features -> has_int row c) df ->
  returns (S := S) (model.training_matrix df) (map training_row df).
Proof.
  intros Hdf. unfold model.training_matrix.
  set (sel := fun row : odict cell =>
         [ ("mismatch", CValue (VInt (int_at row "mismatch")));
           ("suspicious_email", CValue (VInt (int_at row "suspicious_email")));
           ("suspicious_phone", CValue (VInt (int_at row "suspicious_phone")));
           ("repeated_ip", CValue (VInt (int_at row "repeated_ip")));
           ("amount", CValue (VInt (int_at row "amount"))) ]).
  eapply returns_bind with (a := map sel df).
  { unfold frame_select. rewrite <- (map_id df) at 1.
    eapply returns_mapM_map; [| exact Hdf]. intros row Hrow s.
    unfold model.features in *. cbn [mapM]. unfold bind, ret.
    rewrite (odict_getitem_Some row "mismatch" _ s (has_int_at _ _ (Hrow "mismatch" ltac:(repeat constructor)))).
    rewrite (odict_getitem_Some row "suspicious_email" _ s (has_int_at _ _ (Hrow "suspicious_email" ltac:(repeat constructor)))).
    rewrite (odict_getitem_Some row "suspicious_phone" _ s (has_int_at _ _ (Hrow "suspicious_phone" ltac:(repeat constructor)))).
    rewrite (odict_getitem_Some row "repeated_ip" _ s (has_int_at _ _ (Hrow "repeated_ip" ltac:(repeat constructor)))).
    rewrite (odict_getitem_Some row "amount" _ s (has_int_at _ _ (Hrow "amount" ltac:(repeat constructor)))).
    reflexivity. }
  eapply returns_bind with (a := map (fun row => CValue (VInt (int_at row "amount"))) df).
  { unfold frame_col. eapply (returns_mapM_map _ _ _ (fun _ => True)).
    - intros row _ s. reflexivity.
    - apply Forall_forall. auto. }
  eapply returns_bind
    with (a := map (fun row => CFloat (fdiv (inject_Z (int_at row "amount")) 1000.0)) df).
  { eapply (returns_mapM_map _ _ _ (fun _ => True)).
    - intros row _ s. reflexivity.
    - apply Forall_forall. auto. }
  unfold frame_set_col. rewrite zip_with_map_same.
  eapply (returns_mapM_map _ _ _ (fun _ => True)).
  - intros row _ s. reflexivity.
  - apply Forall_forall. auto.
Qed.

Lemma train_model_reaches_fit {S} (df : DataFrame) (s : S) :
  Forall (fun row => (forall c, c ∈ model.features -> has_int row c)
                     /\ has_int row "fraud_label") df ->
  model.train_model df s
  = (fit (map training_row df) (map (fun row => int_at row "fraud_label") df), s).
Proof.
  intros Hdf. unfold model.train_model.
  rewrite (bind_Ok _ _ _ _ _ (training_matrix_returns df
             ltac:(eapply Forall_impl; [exact Hdf | intros row [Hf _]; exact Hf]) s)).
  assert (Hy : returns (S := S)
                 (bind (frame_col df "fraud_label") (mapM cell_int))
                 (map (fun row => int_at row "fraud_label") df)).
  { eapply returns_bind
      with (a := map (fun row => CValue (VInt (int_at row "fraud_label"))) df).
    - unfold frame_col. rewrite <- (map_id df) at 1.
      eapply returns_mapM_map; [| exact Hdf]. intros row [_ Hl] t.
      apply odict_getitem_Some, has_int_at, Hl.
    - eapply (returns_mapM_map _ _ _ (fun _ => True)).
      + intros row _ t. reflexivity.
      + apply Forall_forall. auto. }
  rewrite (bind_Ok _ _ _ _ _ (Hy s)). reflexivity.
Qed.
End training.

Section generated_rows.
Context `{RandomGen} `{FloatOps} `{Classifier}.

Lemma generated_rows_shape n g df g' :
  model.generate_mock_data n g = (Ok df, g') ->
  length df = n /\ Forall is_generated_row df.
Proof.
  intros Hg. destruct (generate_inv _ _ _ _ Hg) as (ips & Ldf & Lips & Hrows).
  split; [exact Ldf|]. apply Forall_lookup. intros i row Hi.
  assert (Hlt : (i < n)%nat) by (rewrite <- Ldf; eapply lookup_lt_Some; eassumption).
  destruct (Hrows i Hlt) as (pin & ship & cs & domain & ds & sp & amount & ip & _ & Hrow & _).
  pose proof (eq_trans (eq_sym Hi) Hrow) as Heq. injection Heq as ->.
  unfold is_generated_row. eauto 15.
Qed.

Lemma drop_and_record {S} (order_id billing_address shipping_address billing_pin
    shipping_pin email phone ip_address mismatch suspicious_email suspicious_phone
    amount repeated_ip fraud_label : value) (s : S) :
  let row :=
    [ ("order_id", CValue order_id); ("billing_address", CValue billing_address);
      ("shipping_address", CValue shipping_address); ("billing_pin", CValue billing_pin);
      ("shipping_pin", CValue shipping_pin); ("email", CValue email);
      ("phone", CValue phone); ("ip_address", CValue ip_address);
      ("mismatch", CValue mismatch); ("suspicious_email", CValue suspicious_email);
      ("suspicious_phone", CValue suspicious_phone); ("amount", CValue amount);
      ("repeated_ip", CValue repeated_ip); ("fraud_label", CValue fraud_label) ] in
  exists dropped order,
    row_drop row startup.dropped_columns s = (Ok dropped, s)
    /\ (forall t : S, record_from ∅ dropped t = (Ok order, t))
    /\ queued_from row order /\ dom order = queue_keys.
Proof.
  cbv zeta. eexists _, _. split; [reflexivity|]. split; [intros t; reflexivity|]. split.
  - intros c. cbn [List.filter fst negb existsb String.eqb Ascii.eqb Bool.eqb orb
                   startup.dropped_columns].
    unfold startup.dropped_columns. cbn [odict_lookup].
    repeat match goal with
           | |- context [String.eqb ?k c] =>
               destruct (decide (c = k)) as [-> | ?]; [vm_compute; reflexivity|];
               rewrite (proj2 (String.eqb_neq k c)) by congruence
           end.
    rewrite !lookup_insert_ne by congruence. rewrite lookup_empty.
    rewrite bool_decide_eq_false_2; [reflexivity|].
    intros Hc. repeat (apply elem_of_cons in Hc as [-> | Hc]; [congruence|]).
    now apply elem_of_nil in Hc.
  - cbn [List.filter fst negb existsb String.eqb Ascii.eqb Bool.eqb orb
         startup.dropped_columns].
    rewrite !dom_insert_L, dom_empty_L. unfold queue_keys. set_solver.
Qed.

Lemma generated_row_queued row order :
  is_generated_row row -> queued_from row order -> order_complete order.
Proof.
  intros (i & pin & ship & user & domain & phone & ip & sp & amount & rep & ->) Hq.
  unfold order_complete, rule_inputs_ok, amount_ok, first_missing, absent, is_str,
    get_default, scoring_keys.
  cbn [List.find].
  rewrite (Hq "email"), (Hq "phone"), (Hq "amount"), (Hq "order_id"),
    (Hq "billing_address"), (Hq "shipping_address"), (Hq "ip_address").
  cbn. repeat split; eauto. intros v [= <-]. eauto.
Qed.
End generated_rows.

Section training_generated.
Context `{RandomGen} `{FloatOps} `{Classifier}.

Lemma generated_row_training row :
  is_generated_row row ->
  ((forall c, c ∈ model.features -> has_int row c) /\ has_int row "fraud_label")
  /\ (int_at row "fraud_label" = 0 \/ int_at row "fraud_label" = 1).
Proof.
  intros (i & pin & ship & user & domain & phone & ip & sp & amount & rep & ->).
  split; [split|].
  - intros c Hc. unfold model.features in Hc.
    repeat (apply elem_of_cons in Hc as [-> | Hc]; [eexists; reflexivity|]).
    now apply elem_of_nil in Hc.
  - eexists. reflexivity.
  - unfold int_at. cbn. unfold label_of_score.
    match goal with |- context [Qltb ?a ?b] => destruct (Qltb a b) end; cbn; auto.
Qed.

Lemma train_on_generated {S} n g df g' (s : S) :
  model.generate_mock_data n g = (Ok df, g') ->
  model.train_model df s
  = (fit (map training_row df) (map (fun row => int_at row "fraud_label") df), s)
  /\ length df = n
  /\ Forall (fun label => label = 0 \/ label = 1)
       (map (fun row => int_at row "fraud_label") df).
Proof.
  intros Hg. destruct (generated_rows_shape _ _ _ _ Hg) as (Hlen & Hrows).
  split; [|split; [exact Hlen|]].
  - apply train_model_reaches_fit. eapply Forall_impl; [exact Hrows|].
    intros row Hrow. apply generated_row_training, Hrow.
  - apply Forall_map. eapply Forall_impl; [exact Hrows|].
    intros row Hrow. apply generated_row_training, Hrow.
Qed.

(** X12. Training on a generated frame. When the generator returns a
    frame for n > 0, [train_model] on it raises no [KeyError] and no
    [TypeError]: it ends in scikit-learn's [fit], called on n feature
    rows and n labels. The feature row of a frame row holds its mismatch,
    suspicious_email, suspicious_phone and repeated_ip cells and its
    amount divided by 1000.0, in this order; the label is the row's
    [fraud_label], 0 or 1. *)
Theorem train_model_on_generated {S} n g df g' (s : S) :
  (0 < n)%nat ->
  model.generate_mock_data n g = (Ok df, g') ->
  let X := map training_row df in
  let y := map (fun row => int_at row "fraud_label") df in
  model.train_model df s = (fit X y, s)
  /\ length X = n /\ length y = n
  /\ Forall (fun x => length x = 5%nat) X
  /\ Forall (fun label => label = 0 \/ label = 1) y
  /\ forall i row, df !! i = Some row ->
       X !! i = Some (training_row row)
       /\ y !! i = Some (int_at row "fraud_label")
       /\ odict_lookup row "fraud_label" = Some (CValue (VInt (int_at row "fraud_label")))
       /\ forall j c, model.features !! j = Some c ->
            exists z, odict_lookup row c = Some (CValue (VInt z))
              /\ training_row row !! j
                 = Some (if String.eqb c "amount" then fdiv (inject_Z z) 1000.0
                         else inject_Z z).
Proof.
  intros _ Hg. cbv zeta.
  destruct (train_on_generated n g df g' s Hg) as (Ht & Hlen & Hy).
  destruct (generated_rows_shape _ _ _ _ Hg) as (_ & Hrows).
  split; [exact Ht|]. rewrite !length_map. split; [exact Hlen|]. split; [exact Hlen|].
  split; [apply Forall_map, Forall_forall; intros; reflexivity|].
  split; [exact Hy|].
  intros i row Hi.
  split; [etrans; [apply lookup_map|]; exact (f_equal (fmap training_row) Hi)|].
  split; [etrans; [apply lookup_map|];
          exact (f_equal (fmap (fun row => int_at row "fraud_label")) Hi)|].
  pose proof (proj1 (Forall_lookup _ _) Hrows i row Hi) as Hrow.
  destruct (generated_row_training row Hrow) as ((Hf & Hl) & _).
  split; [apply has_int_at, Hl|].
  intros j c Hj.
  assert (Hc : c ∈ model.features) by (eapply list_elem_of_lookup_2; eassumption).
  exists (int_at row c). split; [apply has_int_at, Hf, Hc|].
  unfold model.features in Hj.
  do 5 (destruct j as [| j]; [injection Hj as <-; reflexivity|]). discriminate.
Qed.
End training_generated.

Section queue.
Context `{RandomGen} `{FloatOps} `{Classifier}.

Lemma queue_of_rows {S} (df : DataFrame) (s : S) :
  Forall is_generated_row df ->
  exists dropped queue,
    frame_drop df startup.dropped_columns s = (Ok dropped, s)
    /\ to_dict_records dropped s = (Ok queue, s)
    /\ Forall2 queued_from df queue
    /\ Forall order_complete queue
    /\ Forall (fun order => dom order = queue_keys) queue.
Proof.
  induction 1 as [| row df Hrow _ IH].
  - exists [], []. repeat split; constructor.
  - destruct IH as (dropped & queue & Hd & Hr & Hq & Hc & Hk).
    pose proof Hrow as (i & pin & ship & user & domain & phone & ip & sp & amount & rep & Hshape).
    destruct (drop_and_record
                (VInt (Z.of_nat i + 1)) (VStr (billing_of i pin))
                (VStr (shipping_of i pin ship)) (VInt pin) (VInt ship)
                (VStr (user +:+ "@" +:+ domain)) (VStr phone) (VStr ip)
                (VInt (Z.b2z (negb (ship =? pin))))
                (VInt (Z.b2z (bool_decide (domain ∈ model.disposable_domains))))
                (VInt sp) (VInt amount) (VInt rep)
                (VInt (label_of_score
                   (linear_score_of
                      (Z.b2z (negb (ship =? pin)))
                      (Z.b2z (bool_decide (domain ∈ model.disposable_domains)))
                      sp rep amount))) s)
      as (d & order & Hd1 & Hr1 & Hq1 & Hk1).
    change (row_drop (generated_row i pin ship user domain phone ip sp amount rep)
              startup.dropped_columns s = (Ok d, s)) in Hd1.
    change (queued_from (generated_row i pin ship user domain phone ip sp amount rep) order)
      in Hq1.
    rewrite <- Hshape in Hd1, Hq1.
    exists (d :: dropped), (order :: queue).
    split.
    { unfold frame_drop in *. cbn [mapM]. unfold bind at 1. rewrite Hd1.
      unfold bind at 1. rewrite Hd. reflexivity. }
    split.
    { unfold to_dict_records in *. cbn [mapM]. unfold bind at 1. rewrite Hr1.
      unfold bind at 1. rewrite Hr. reflexivity. }
    split; [constructor; assumption|].
    split; [constructor; [eapply generated_row_queued; eassumption | assumption]|].
    constructor; assumption.
Qed.

Lemma initial_session_of_generated g df g' :
  model.generate_mock_data 20 g = (Ok df, g') ->
  exists queue,
    startup.initial_session g
    = (Ok {| app.new_orders := queue; app.processed_orders := [];
             app.seen_ips := ∅ |}, g')
    /\ length queue = 20%nat
    /\ Forall2 queued_from df queue
    /\ Forall order_complete queue
    /\ Forall (fun order => dom order = queue_keys) queue.
Proof.
  intros Hg. destruct (generated_rows_shape _ _ _ _ Hg) as (Hlen & Hrows).
  destruct (queue_of_rows df g' Hrows) as (dropped & queue & Hd & Hr & Hq & Hc & Hk).
  exists queue. unfold startup.initial_session.
  rewrite (bind_Ok _ _ _ _ _ Hg), (bind_Ok _ _ _ _ _ Hd), (bind_Ok _ _ _ _ _ Hr).
  split; [reflexivity|]. split; [|auto].
  rewrite <- (Forall2_length _ _ _ Hq). exact Hlen.
Qed.

End queue.

Lemma repeated_of_other (ips : list cell) i j ip :
  ips !! i = Some (CValue (VStr ip)) -> ips !! j = Some (CValue (VStr ip)) ->
  j <> i -> repeated_of ips ip = 1.
Proof.
  intros Hi Hj Hne. unfold repeated_of, model.ip_count.
  assert (Hc : (1 < length (List.filter (cell_eqb (CValue (VStr ip))) ips))%nat).
  { apply (filter_length_other _ ips i (CValue (VStr ip)) Hi).
    - cbn. now apply bool_decide_eq_true.
    - exists j, (CValue (VStr ip)). split; [exact Hne|]. split; [exact Hj|].
      cbn. now apply bool_decide_eq_true. }
  destruct (1 <? _) eqn:E; [reflexivity|]. apply Z.ltb_ge in E. lia.
Qed.

Lemma generated_order_rules i pin ship cs domain :
  Forall (fun c => c ∈ model.letters) cs ->
  domain ∈ model.disposable_domains \/ domain ∈ model.normal_domains ->
  rules.is_address_mismatch (VStr (billing_of i pin)) (VStr (shipping_of i pin ship))
  = negb (ship =? pin)
  /\ rules.is_suspicious_email (PyStr.join "" cs +:+ "@" +:+ domain)
     = bool_decide (domain ∈ model.disposable_domains).
Proof.
  intros Hcs Hdom. split.
  - unfold rules.is_address_mismatch. destruct (ship =? pin) eqn:E.
    + apply Z.eqb_eq in E. subst ship. unfold shipping_of. rewrite Z.eqb_refl.
      cbn. now rewrite bool_decide_eq_true_2.
    + apply Z.eqb_neq in E. cbn. rewrite bool_decide_eq_false_2; [reflexivity|].
      intros [= Heq]. now apply (billing_shipping_differ i pin ship).
  - apply generated_email_rule; [| exact Hdom].
    apply join_empty_chars. eapply Forall_impl; [exact Hcs|]. apply letters_no_at.
Qed.

Section script_reruns.
Context `{RandomGen} `{FloatOps} `{Classifier}.
Import startup.


Hypothesis Hrange : random_in_range _.



End script_reruns.


Section generated_queue.
Context `{RandomGen} `{FloatOps} `{Classifier}.

(** X14. The queue of a new session against the frame it is made from.
    When the generator returns the frame of 20 orders, the session starts
    with one queued order per row, holding the cells of the row apart
    from the five dropped columns. Pressing the button 20 times gives the
    order of row i a verdict whose [mismatch] and [suspicious_email]
    flags are the columns of these names that were dropped from the row,
    whose [suspicious_phone] flag is the phone rule on the row's phone,
    and whose [repeated_ip] flag is true exactly when an earlier row has
    the same IP address, in which case the row's [repeated_ip] column is
    1; the feature row given to the model is the row's training row with
    the phone and repeated-IP features replaced by these two flags. *)
Theorem generated_queue_verdicts model g df g' :
  model.generate_mock_data 20 g = (Ok df, g') ->
  exists st,
    startup.initial_session g = (Ok st, g')
    /\ app.processed_orders st = [] /\ app.seen_ips st = ∅
    /\ Forall2 queued_from df (app.new_orders st)
    /\ forall i row, df !! i = Some row ->
         exists l phone repeated,
           (press_all model 20 st).1 !! i = Some (Ok (Some l))
           /\ odict_lookup row "phone" = Some (CValue (VStr phone))
           /\ app.flags l =
                [ ("mismatch", int_at row "mismatch" =? 1);
                  ("suspicious_email", int_at row "suspicious_email" =? 1);
                  ("suspicious_phone", rules.is_suspicious_phone phone);
                  ("repeated_ip", repeated) ]
           /\ (repeated = true
               <-> exists j other, (j < i)%nat /\ df !! j = Some other
                     /\ odict_lookup other "ip_address" = odict_lookup row "ip_address")
           /\ (repeated = true -> int_at row "repeated_ip" = 1)
           /\ app.features l =
                [ <[2%nat := app.int_of_bool (rules.is_suspicious_phone phone)]>
                    (<[3%nat := app.int_of_bool repeated]> (training_row row)) ]
           /\ odict_lookup (app.result_entry l) "Order ID"
              = Some (CValue (VInt (Z.of_nat i + 1))).
Proof.
  intros Hg.
  destruct (initial_session_of_generated g df g' Hg) as (queue & Hs & Hlen & Hq & Hc & _).
  eexists. split; [exact Hs|].
  cbn [app.new_orders app.processed_orders app.seen_ips].
  split; [reflexivity|]. split; [reflexivity|]. split; [exact Hq|].
  destruct (generate_inv _ _ _ _ Hg) as (ips & Ldf & Lips & Hrows).
  pose proof (press_all_scored model queue [] ∅ Hc) as Hrun.
  cbv zeta in Hrun. rewrite Hlen in Hrun.
  destruct Hrun as (_ & _ & _ & entries & _ & _ & Hresults).
  assert (Hips : forall j order_j, queue !! j = Some order_j ->
            exists ip_j row_j, ips !! j = Some (CValue (VStr ip_j))
              /\ df !! j = Some row_j
              /\ odict_lookup row_j "ip_address" = Some (CValue (VStr ip_j))
              /\ order_ip order_j = VStr ip_j).
  { intros j order_j Hj.
    assert (Hjn : (j < 20)%nat) by (rewrite <- Hlen; eapply lookup_lt_Some; eassumption).
    destruct (Hrows j Hjn) as (pin' & ship' & cs' & domain' & ds' & sp' & amount' & ip'
                               & Hip' & Hrow' & _).
    destruct (Forall2_lookup_l _ _ _ _ _ Hq Hrow') as (o & Ho & Hfrom).
    pose proof (eq_trans (eq_sym Hj) Ho) as Heq. injection Heq as ->.
    exists ip'. eexists. split; [exact Hip'|]. split; [exact Hrow'|].
    split; [reflexivity|]. unfold order_ip, get_default. rewrite (Hfrom "ip_address").
    reflexivity. }
  intros i row Hi.
  assert (Hlt : (i < 20)%nat) by (rewrite <- Ldf; eapply lookup_lt_Some; eassumption).
  destruct (Hrows i Hlt) as (pin & ship & cs & domain & ds & sp & amount & ip
                             & Hip & Hrow & Hcs & Hdom & _).
  pose proof (eq_trans (eq_sym Hi) Hrow) as Heq. injection Heq as ->.
  destruct (Forall2_lookup_l _ _ _ _ _ Hq Hrow) as (order & Ho & Hfrom).
  destruct (Hresults i order Ho) as (l & st_i & st_i' & Hl & _ & Hscore & Hseen).
  destruct (generated_order_rules i pin ship cs domain Hcs Hdom) as (Hmis & Hem).
  destruct (score_explicit _ _ _ _ _ Hscore)
    as (oid & em & ph & bi & sh & a & Hoid & _ & _ & _ & _ & _ & Hentry).
  pose proof (score_Ok_inv _ _ _ _ _ Hscore) as Hsc.
  destruct Hsc as (email & phone & a' & ip0 & x & Hemail & Hphone & Ha & _ & _ & Hfl & Hx
                   & Hfeat & _).
  unfold get_default in Hemail, Hphone.
  rewrite (Hfrom "email") in Hemail. rewrite (Hfrom "phone") in Hphone.
  rewrite (Hfrom "amount") in Ha. rewrite (Hfrom "order_id") in Hoid.
  cbn in Hemail, Hphone, Ha, Hoid.
  injection Hemail as <-. injection Hphone as <-. injection Ha as <-. injection Hoid as <-.
  assert (Hflags : app.flags l =
            [ ("mismatch", negb (ship =? pin));
              ("suspicious_email", bool_decide (domain ∈ model.disposable_domains));
              ("suspicious_phone", rules.is_suspicious_phone (PyStr.join "" ds));
              ("repeated_ip", bool_decide (order_ip order ∈ app.seen_ips st_i)) ]).
  { assert (Hb : order !! "billing_address" = Some (VStr (billing_of i pin)))
      by (rewrite (Hfrom "billing_address"); reflexivity).
    assert (Hsh : order !! "shipping_address" = Some (VStr (shipping_of i pin ship)))
      by (rewrite (Hfrom "shipping_address"); reflexivity).
    rewrite Hfl. unfold rule_flags, get_default. rewrite Hb, Hsh.
    cbn [from_option id]. rewrite Hmis, Hem.
    reflexivity. }
  exists l, (PyStr.join "" ds), (bool_decide (order_ip order ∈ app.seen_ips st_i)).
  split; [exact Hl|]. split; [reflexivity|].
  assert (Hme : order_ip order = VStr ip).
  { unfold order_ip, get_default. rewrite (Hfrom "ip_address"). reflexivity. }
  assert (Hrep : bool_decide (order_ip order ∈ app.seen_ips st_i) = true
                 <-> exists j, (j < i)%nat /\ ips !! j = Some (CValue (VStr ip))).
  { rewrite bool_decide_eq_true, Hseen, Hme.
    assert (Hin : VStr ip ∈ (∅ : gset value) ∪ list_to_set (map order_ip (take i queue))
                  <-> VStr ip ∈ map order_ip (take i queue)).
    { rewrite elem_of_union, elem_of_list_to_set. set_solver. }
    rewrite Hin. split.
    - intros Hm. apply list_elem_of_lookup_1 in Hm. destruct Hm as (j & Hj).
      pose proof (lookup_map order_ip (take i queue) j) as Hmap.
      rewrite Hj in Hmap. destruct (take i queue !! j) as [order_j |] eqn:Htake;
        [| discriminate].
      injection Hmap as Hmap.
      assert (Hji : (j < i)%nat).
      { apply lookup_lt_Some in Htake. rewrite length_take in Htake. lia. }
      rewrite lookup_take_lt in Htake by exact Hji.
      destruct (Hips j order_j Htake) as (ip_j & row_j & Hipj & _ & _ & Hoj).
      exists j. split; [exact Hji|]. rewrite Hipj. congruence.
    - intros (j & Hji & Hj).
      assert (Hjn : (j < length queue)%nat) by lia.
      destruct (lookup_lt_is_Some_2 queue j Hjn) as (order_j & Hoj).
      destruct (Hips j order_j Hoj) as (ip_j & row_j & Hipj & _ & _ & Hord).
      apply (list_elem_of_lookup_2 _ j).
      etrans; [apply lookup_map|]. rewrite lookup_take_lt by exact Hji. rewrite Hoj.
      cbn. congruence. }
  rewrite Hflags. split.
  { unfold int_at. cbn.
    destruct (negb (ship =? pin)), (bool_decide (domain ∈ model.disposable_domains));
      reflexivity. }
  split.
  { rewrite Hrep. split.
    - intros (j & Hji & Hj).
      assert (Hjn : (j < 20)%nat) by lia.
      destruct (Hrows j Hjn) as (pin' & ship' & cs' & domain' & ds' & sp' & amount' & ip'
                                 & Hip' & Hrow' & _).
      eexists j, _. split; [exact Hji|]. split; [exact Hrow'|].
      rewrite Hj in Hip'. injection Hip' as <-. reflexivity.
    - intros (j & other & Hji & Hj & Hsame).
      assert (Hjn : (j < 20)%nat) by lia.
      destruct (Hrows j Hjn) as (pin' & ship' & cs' & domain' & ds' & sp' & amount' & ip'
                                 & Hip' & Hrow' & _).
      pose proof (eq_trans (eq_sym Hj) Hrow') as Heq. injection Heq as ->.
      cbn in Hsame. injection Hsame as ->. exists j. split; [exact Hji | exact Hip']. }
  split.
  { rewrite Hrep. intros (j & Hji & Hj). unfold int_at. cbn.
    apply (repeated_of_other ips i j ip Hip Hj). lia. }
  split.
  { rewrite Hfeat, Hx, Hflags. unfold app.int_of_bool, int_at, training_row. cbn.
    reflexivity. }
  rewrite Hentry. cbn zeta.
  destruct (map display_name (triggered (app.flags l))); reflexivity.
Qed.

End generated_queue.

(** ** Concrete runs of the added properties *)

Lemma counter_rng_in_range : random_in_range counter_rng.
Proof.
  unfold random_in_range. cbn. split; [|split].
  - intros n g Hn. apply Nat2Z.inj_lt. rewrite Z2Nat.id.
    + apply Z.mod_pos_bound. lia.
    + apply Z.mod_pos_bound. lia.
  - intros n k g Hk. apply Forall_forall. intros j Hj.
    apply list_elem_of_fmap in Hj as (x & -> & Hx). apply elem_of_seq in Hx.
    apply Nat2Z.inj_lt. rewrite Z2Nat.id; apply Z.mod_pos_bound; lia.
  - intros n k g Hn. apply Forall_forall. intros j Hj.
    apply list_elem_of_fmap in Hj as (x & -> & Hx).
    apply Nat2Z.inj_lt. rewrite Z2Nat.id; apply Z.mod_pos_bound; lia.
Qed.


Lemma recorded_entry_scenario :
  app.processed_orders after_first = [] ++ [app.result_entry first_locals]
  /\ map fst (app.result_entry first_locals) = entry_keys
  /\ odict_lookup (app.result_entry first_locals) "Order ID" = Some (CValue (VInt 1))
  /\ odict_lookup (app.result_entry first_locals) "Alerts"
     = Some (CValue (VStr "Suspicious Email, Suspicious Phone")).
Proof.
  destruct (recorded_entry (H := exact_arith) (H0 := constant_classifier 0) tt
              scenario_order (session_of [scenario_order] ∅) first_locals after_first)
    as (Hp & Hk & Hid & _ & _ & _ & _ & _ & _ & Ha & _).
  - vm_compute. reflexivity.
  - split; [exact Hp|]. split; [exact Hk|]. split; [exact Hid|]. exact Ha.
Defined.



Lemma session_history_scenario :
  (exists k, app.new_orders after_second = drop k (app.new_orders twice_queued))
  /\ (exists more,
        app.processed_orders after_second = app.processed_orders twice_queued ++ more)
  /\ app.seen_ips twice_queued ⊆ app.seen_ips after_second.
Proof.
  apply (session_history (H := exact_arith) (H0 := constant_classifier 0) tt).
  eapply rtc_l; [| eapply rtc_l; [| apply rtc_refl]].
  - exists (Ok (Some first_locals)). vm_compute. reflexivity.
  - exists (Ok (Some second_locals)). vm_compute. reflexivity.
Defined.

Lemma three_orders_shape :
  length three_orders = 3%nat
  /\ forall i row, three_orders !! i = Some row -> map fst row = generated_columns.
Proof.
  destruct (generated_frame_shape (H := counter_rng) (H0 := exact_arith) 3 0
              three_orders after_three_orders) as (Hl & Hrows).
  - lia.
  - vm_compute. reflexivity.
  - split; [exact Hl|]. intros i row Hi. apply (Hrows i row Hi).
Defined.

Lemma three_orders_repeated_ip :
  odict_lookup first_of_three "repeated_ip" = Some (CValue (VInt 1))
  <-> exists j other, j <> 0%nat /\ three_orders !! j = Some other
        /\ odict_lookup other "ip_address" = odict_lookup first_of_three "ip_address".
Proof.
  refine (proj2 (generated_repeated_ip (H := counter_rng) (H0 := exact_arith) 3 0
                   three_orders after_three_orders _ 0%nat first_of_three _)).
  - vm_compute. reflexivity.
  - vm_compute. reflexivity.
Defined.

Lemma three_orders_label :
  exists mismatch suspicious_email suspicious_phone repeated_ip amount,
    odict_lookup first_of_three "amount" = Some (CValue (VInt amount))
    /\ odict_lookup first_of_three "fraud_label"
       = Some (CValue (VInt (label_of_score (H := exact_arith)
                (linear_score_of (H := exact_arith) mismatch suspicious_email
                   suspicious_phone repeated_ip amount)))).
Proof.
  destruct (generated_label (H := counter_rng) (H0 := exact_arith) 3 0
              three_orders after_three_orders) with (i := 0%nat) (row := first_of_three)
    as (m & se & sp & r & a & _ & _ & _ & _ & Ha & Hl).
  - vm_compute. reflexivity.
  - vm_compute. reflexivity.
  - exists m, se, sp, r, a. split; [exact Ha | exact Hl].
Defined.

Lemma three_orders_flags :
  exists billing shipping email phone,
    odict_lookup second_of_three "email" = Some (CValue (VStr email))
    /\ odict_lookup second_of_three "mismatch"
       = Some (CValue (VInt (Z.b2z
            (rules.is_address_mismatch (VStr billing) (VStr shipping)))))
    /\ odict_lookup second_of_three "suspicious_email"
       = Some (CValue (VInt (Z.b2z (rules.is_suspicious_email email))))
    /\ (10 <= String.length phone)%nat.
Proof.
  destruct (generated_flags_match_rules (H := counter_rng) (H0 := exact_arith) 3 0
              three_orders after_three_orders) with (i := 1%nat) (row := second_of_three)
    as (b & s & e & p & _ & _ & He & _ & Hm & Hse & Hlen & _).
  - vm_compute. reflexivity.
  - vm_compute. reflexivity.
  - exists b, s, e, p. split; [exact He|]. split; [exact Hm|]. split; [exact Hse | exact Hlen].
Defined.

Lemma generate_returns_three :
  random_in_range counter_rng
  /\ exists df g',
       @model.generate_mock_data counter_rng exact_arith 3 0 = (Ok df, g')
       /\ length df = 3%nat.
Proof.
  split; [exact counter_rng_in_range|].
  apply (generate_returns (H := counter_rng) (H0 := exact_arith) 3 0 counter_rng_in_range).
  lia.
Defined.

Lemma train_model_on_three_orders :
  @model.train_model exact_arith (constant_classifier 0) unit three_orders tt
  = (fit (Classifier := constant_classifier 0)
       (map (training_row (H := exact_arith)) three_orders)
       (map (fun row => int_at row "fraud_label") three_orders), tt)
  /\ length (map (training_row (H := exact_arith)) three_orders) = 3%nat.
Proof.
  destruct (train_model_on_generated (H := counter_rng) (H0 := exact_arith)
              (H1 := constant_classifier 0) (S := unit) 3 0 three_orders
              after_three_orders tt) as (Ht & Hx & _).
  - lia.
  - vm_compute. reflexivity.
  - split; [exact Ht | exact Hx].
Defined.


Lemma queue_of_twenty_orders :
  exists st l,
    @startup.initial_session counter_rng exact_arith 0 = (Ok st, after_twenty_orders)
    /\ Forall2 queued_from twenty_orders (app.new_orders st)
    /\ (@press_all exact_arith (constant_classifier 0) tt 20 st).1 !! 1%nat
       = Some (Ok (Some l))
    /\ odict_lookup (app.flags l) "repeated_ip" = Some true
    /\ odict_lookup (app.result_entry l) "Order ID" = Some (CValue (VInt 2)).
Proof.
  destruct (generated_queue_verdicts (H := counter_rng) (H0 := exact_arith)
              (H1 := constant_classifier 0) tt 0 twenty_orders after_twenty_orders)
    as (st & Hs & _ & _ & Hq & Hrows).
  - vm_compute. reflexivity.
  - assert (Hrow : twenty_orders !! 1%nat = Some second_of_twenty)
      by (vm_compute; reflexivity).
    destruct (Hrows 1%nat second_of_twenty Hrow)
      as (l & phone & repeated & Hl & _ & Hfl & Hrep & _ & _ & Hid).
    exists st, l. split; [exact Hs|]. split; [exact Hq|]. split; [exact Hl|].
    split; [| exact Hid].
    rewrite Hfl. cbn [odict_lookup String.eqb Ascii.eqb Bool.eqb]. f_equal. apply Hrep.
    exists 0%nat, first_of_twenty.
    split; [lia|]. split; vm_compute; reflexivity.
Defined.
